(** * RPN calculator: a shallow embedding of [src/lib/rpn-calculator.ts]

    The evaluator is a stack machine over IEEE 754 doubles.  Doubles are
    Rocq's primitive binary64 floats; JavaScript strings are sequences of
    code units, modelled by [string] (code units below 256).  A thrown
    [Error] is a value of type [Error], one constructor per [throw] site of
    the source, and a function that may throw returns a [result]. *)

From Stdlib Require Import ZArith List String Ascii Bool Lia.
From Stdlib Require Import Floats.
Import ListNotations.

#[local] Set Warnings "-inexact-float".
Local Open Scope string_scope.
Local Open Scope list_scope.

(** ** Strings: whitespace, [trim], [split(/\s+/)] *)

Module JSString.

(** The code units below 256 that ECMAScript counts as WhiteSpace or
    LineTerminator: TAB, LF, VT, FF, CR, SP and NBSP.  Both
    [String.prototype.trim] and the regular expression class [\s] use
    this set. *)
Definition isWhiteSpace (c : ascii) : bool :=
  let n := nat_of_ascii c in
  ((9 <=? n)%nat && (n <=? 13)%nat) || (n =? 32)%nat || (n =? 160)%nat.

Fixpoint trimStart (s : string) : string :=
  match s with
  | EmptyString => EmptyString
  | String c r => if isWhiteSpace c then trimStart r else s
  end.

(** [allWhite s] holds when [s] is made of whitespace only. *)
Fixpoint allWhite (s : string) : bool :=
  match s with
  | EmptyString => true
  | String c r => isWhiteSpace c && allWhite r
  end.

Fixpoint trimEnd (s : string) : string :=
  match s with
  | EmptyString => EmptyString
  | String c r => if allWhite s then EmptyString else String c (trimEnd r)
  end.

Definition trim (s : string) : string := trimEnd (trimStart s).

(** [s.split(/\s+/)]: every maximal run of whitespace is one separator;
    the pieces between separators are returned, empty pieces included
    (before a leading separator, after a trailing one, and the whole
    string when it is empty).  [cur] is the piece being read and [inRun]
    tells that the previous code unit belonged to a separator. *)
Fixpoint splitFrom (s : string) (cur : string) (inRun : bool) : list string :=
  match s with
  | EmptyString => [cur]
  | String c r =>
      if isWhiteSpace c then
        if inRun then splitFrom r EmptyString true
        else cur :: splitFrom r EmptyString true
      else splitFrom r (cur ++ String c EmptyString) false
  end.

Definition split (s : string) : list string := splitFrom s EmptyString false.

Fixpoint startsWith (p s : string) : bool :=
  match p, s with
  | EmptyString, _ => true
  | String a p', String b s' => Ascii.eqb a b && startsWith p' s'
  | String _ _, EmptyString => false
  end.

End JSString.

(** ** Numbers: doubles, [isNaN], [isFinite], [Number.parseFloat] *)

Module JSNumber.

Local Open Scope float_scope.

Definition NaN : float := nan.
Definition isNaN (x : float) : bool := is_nan x.
Definition isFinite (x : float) : bool := is_finite x.


(** A JavaScript value as the calculator meets it: a number, or the
    [undefined] that [Array.prototype.pop] returns on an empty array. *)
Inductive value := Undefined | Num (x : float).

(** ToNumber: [undefined] becomes NaN. *)
Definition ToNumber (v : value) : float :=
  match v with
  | Undefined => NaN
  | Num x => x
  end.

Definition isDigit (c : ascii) : bool :=
  let n := nat_of_ascii c in (48 <=? n)%nat && (n <=? 57)%nat.

Definition digitValue (c : ascii) : Z := Z.of_nat (nat_of_ascii c) - 48.

(** The longest run of decimal digits at the head of [s], read as a
    natural number: [(value, number of digits, rest)]. *)
Fixpoint takeDigits (s : string) (acc : Z) (n : Z) : Z * Z * string :=
  match s with
  | String c r =>
      if isDigit c then takeDigits r (10 * acc + digitValue c)%Z (n + 1)%Z
      else (acc, n, s)
  | EmptyString => (acc, n, s)
  end.

(** A sign, if there is one: [(negative, rest)]. *)
Definition takeSign (s : string) : bool * string :=
  match s with
  | String "-" r => (true, r)
  | String "+" r => (false, r)
  | _ => (false, s)
  end.

(** ExponentPart, if a complete one is there: [e] or [E], an optional
    sign and at least one digit.  Anything less is not part of the
    literal and counts as exponent 0. *)
Definition takeExponent (s : string) : Z :=
  match s with
  | String c r =>
      if Ascii.eqb c "e" || Ascii.eqb c "E" then
        let '(neg, r') := takeSign r in
        let '(v, n, _) := takeDigits r' 0%Z 0%Z in
        if (n =? 0)%Z then 0%Z else if neg then (- v)%Z else v
      else 0%Z
  | EmptyString => 0%Z
  end.

(** The double nearest to [m * 10^e10] (ties to even), for [m >= 0],
    with the sign [neg]: the rounding of a literal's mathematical value. *)
Definition roundDecimal (neg : bool) (m : Z) (e10 : Z) : float :=
  match m with
  | Zpos p =>
      if (0 <=? e10)%Z then
        SF2Prim (binary_normalize prec emax (if neg then - (m * 10 ^ e10) else m * 10 ^ e10)%Z 0 false)
      else
        let '(q, e, l) := SFdiv_core_binary prec emax m 0 (10 ^ (- e10))%Z 0 in
        SF2Prim (binary_round_aux prec emax neg q e l)
  | _ => if neg then neg_zero else zero
  end.

(** [Number.parseFloat]: leading whitespace is skipped, then the longest
    prefix that is a StrDecimalLiteral is read and whatever follows it is
    ignored; with no such prefix the result is NaN. *)
Definition parseFloat (input : string) : float :=
  let '(neg, s) := takeSign (JSString.trimStart input) in
  if JSString.startsWith "Infinity" s then
    (if neg then neg_infinity else infinity)
  else
    let '(ip, ni, r1) := takeDigits s 0%Z 0%Z in
    match r1 with
    | String "." r2 =>
        let '(m, nf, r3) := takeDigits r2 ip 0%Z in
        if ((ni =? 0) && (nf =? 0))%Z then NaN
        else roundDecimal neg m (takeExponent r3 - nf)%Z
    | _ =>
        if (ni =? 0)%Z then NaN
        else roundDecimal neg ip (takeExponent r1)
    end.

End JSNumber.

Import JSString JSNumber.

(** ** The engine's [Math] functions

    ECMAScript leaves [Math.pow] on finite operands and [Math.sin],
    [Math.cos], [Math.tan] implementation-approximated, so the calculator
    is modelled over an arbitrary engine.  [Math.sqrt] and the arithmetic
    operators are the correctly rounded IEEE 754 operations. *)

Record MathImpl := {
  Math_pow : float -> float -> float;
  Math_sin : float -> float;
  Math_cos : float -> float;
  Math_tan : float -> float
}.

(** [Math.PI], the double nearest to pi (3.141592653589793). *)
Definition Math_PI : float := 0x1.921fb54442d18p+1%float.

Definition Math_sqrt (x : float) : float := PrimFloat.sqrt x.

(** ** Thrown errors *)

(** One constructor per [throw new Error(...)] of the source. *)
Inductive Error :=
| ExpressionEmpty
| InsufficientOperandsFor (operator : string)
| DivisionByZero
| UnknownBinaryOperator (operator : string)
| SquareRootOfNegative
| UnknownUnaryOperator (operator : string)
| UnknownToken (token : string)
| TooManyOperands
| InsufficientOperands.

(** The message each error carries. *)
Definition message (e : Error) : string :=
  match e with
  | ExpressionEmpty => "Expression cannot be empty"
  | InsufficientOperandsFor op => "Insufficient operands for operator '" ++ op ++ "'"
  | DivisionByZero => "Division by zero"
  | UnknownBinaryOperator op => "Unknown binary operator: " ++ op
  | SquareRootOfNegative => "Square root of negative number"
  | UnknownUnaryOperator op => "Unknown unary operator: " ++ op
  | UnknownToken tok => "Unknown token: '" ++ tok ++ "'"
  | TooManyOperands => "Invalid expression: too many operands"
  | InsufficientOperands => "Invalid expression: insufficient operands"
  end.

(** The error kinds of the specification's taxonomy. *)
Inductive ErrorKind :=
| EmptyExpressionError
| UnknownTokenError
| InsufficientOperandsError
| TooManyOperandsError
| DivisionByZeroError
| NegativeSqrtError.

Definition kind (e : Error) : ErrorKind :=
  match e with
  | ExpressionEmpty => EmptyExpressionError
  | InsufficientOperandsFor _ | InsufficientOperands => InsufficientOperandsError
  | DivisionByZero => DivisionByZeroError
  | SquareRootOfNegative => NegativeSqrtError
  | UnknownBinaryOperator _ | UnknownUnaryOperator _ | UnknownToken _ => UnknownTokenError
  | TooManyOperands => TooManyOperandsError
  end.

Inductive result (A : Type) :=
| Ok (a : A)
| Throw (e : Error).
Arguments Ok {A} a.
Arguments Throw {A} e.

Definition bind {A B : Type} (r : result A) (k : A -> result B) : result B :=
  match r with
  | Ok a => k a
  | Throw e => Throw e
  end.

Notation "x <- r ;; k" := (bind r (fun x => k))
  (at level 61, r at next level, right associativity).

(** ** The stack: a JavaScript array, bottom first *)

Definition Stack := list float.

Definition push (stack : Stack) (x : float) : Stack := stack ++ [x].

(** [stack.pop()]: the last element and the array without it, or
    [undefined] and the array unchanged when it is empty. *)
Fixpoint pop (stack : Stack) : value * Stack :=
  match stack with
  | [] => (Undefined, [])
  | [x] => (Num x, [])
  | x :: rest => let '(v, rest') := pop rest in (v, x :: rest')
  end.

(** ** JavaScript operators on values that are numbers or [undefined] *)

Module JSOp.
Local Open Scope float_scope.

Definition add (a b : value) : float := ToNumber a + ToNumber b.
Definition sub (a b : value) : float := ToNumber a - ToNumber b.
Definition mul (a b : value) : float := ToNumber a * ToNumber b.
Definition div (a b : value) : float := ToNumber a / ToNumber b.

(** [v === 0]: false for [undefined], numeric equality otherwise (so
    true of both zeros and false of NaN). *)
Definition strictEqZero (v : value) : bool :=
  match v with
  | Undefined => false
  | Num x => x =? 0
  end.

(** [v < 0] *)
Definition ltZero (v : value) : bool := ToNumber v <? 0.
End JSOp.

Definition SUPPORTED_OPERATORS : list string :=
  ["+"; "-"; "*"; "/"; "^"; "sqrt"; "sin"; "cos"; "tan"].

Definition UNARY_OPERATORS : list string := ["sqrt"; "sin"; "cos"; "tan"].

(** The supported operators that are not unary. *)
Definition BINARY_OPERATORS : list string := ["+"; "-"; "*"; "/"; "^"].

(** [Set.prototype.has] and [Array.prototype.includes] on strings. *)
Definition has (set : list string) (token : string) : bool :=
  existsb (String.eqb token) set.

Definition isNumber (token : string) : bool :=
  negb (isNaN (parseFloat token)) && isFinite (parseFloat token).

Definition toRadians (degrees : value) : float :=
  (ToNumber degrees * (Math_PI / 180))%float.

Section Calculator.

Variable M : MathImpl.

Definition processBinaryOperator (stack : Stack) (operator : string) : result Stack :=
  if (List.length stack <? 2)%nat then Throw (InsufficientOperandsFor operator)
  else
    let '(b, stack) := pop stack in
    let '(a, stack) := pop stack in
    if operator =? "+" then Ok (push stack (JSOp.add a b))
    else if operator =? "-" then Ok (push stack (JSOp.sub a b))
    else if operator =? "*" then Ok (push stack (JSOp.mul a b))
    else if operator =? "/" then
      if JSOp.strictEqZero b then Throw DivisionByZero
      else Ok (push stack (JSOp.div a b))
    else if operator =? "^" then
      Ok (push stack (Math_pow M (ToNumber a) (ToNumber b)))
    else Throw (UnknownBinaryOperator operator).

Definition processUnaryOperator (stack : Stack) (operator : string) : result Stack :=
  if (List.length stack <? 1)%nat then Throw (InsufficientOperandsFor operator)
  else
    let '(a, stack) := pop stack in
    if operator =? "sqrt" then
      if JSOp.ltZero a then Throw SquareRootOfNegative
      else Ok (push stack (Math_sqrt (ToNumber a)))
    else if operator =? "sin" then Ok (push stack (Math_sin M (toRadians a)))
    else if operator =? "cos" then Ok (push stack (Math_cos M (toRadians a)))
    else if operator =? "tan" then Ok (push stack (Math_tan M (toRadians a)))
    else Throw (UnknownUnaryOperator operator).

(** The body of the [for] loop of [evaluateRPN]. *)
Definition processToken (stack : Stack) (token : string) : result Stack :=
  if isNumber token then Ok (push stack (parseFloat token))
  else if has SUPPORTED_OPERATORS token then
    if has UNARY_OPERATORS token then processUnaryOperator stack token
    else processBinaryOperator stack token
  else Throw (UnknownToken token).

(** The loop: the tokens in order, stopping at the first throw. *)
Fixpoint processTokens (tokens : list string) (stack : Stack) : result Stack :=
  match tokens with
  | [] => Ok stack
  | token :: rest =>
      stack' <- processToken stack token ;;
      processTokens rest stack'
  end.

(** The check after the loop. *)
Definition finish (stack : Stack) : result float :=
  if negb (List.length stack =? 1)%nat then
    if (1 <? List.length stack)%nat then Throw TooManyOperands
    else Throw InsufficientOperands
  else Ok (nth 0 stack NaN).

Definition evaluateRPN (expression : string) : result float :=
  if (expression =? "") || (String.length (trim expression) =? 0)%nat then
    Throw ExpressionEmpty
  else
    let tokens := split (trim expression) in
    stack <- processTokens tokens [] ;;
    finish stack.

Definition validateRPN (expression : string) : bool :=
  match evaluateRPN expression with
  | Ok _ => true
  | Throw _ => false
  end.

End Calculator.

(** ** The step recorder *)

(** The [action] text of a step, with the holes of its template literal
    kept as values: [`Push ${token}`], [`Apply ${token} to ${a}`] and
    [`Apply ${a} ${token} ${b}`]. *)
Inductive Action :=
| Push (token : string)
| ApplyTo (token : string) (a : value)
| Apply (a : value) (token : string) (b : value).

Record EvaluationStep := {
  step_token : string;
  step_stack : list float;
  step_action : Action
}.

Section StepRecorder.

Variable M : MathImpl.

(** The body of the [for] loop of [getEvaluationSteps], on the pair of
    the two arrays it mutates. *)
Definition recordToken (st : Stack * list EvaluationStep) (token : string)
  : Stack * list EvaluationStep :=
  let '(stack, steps) := st in
  if isNumber token then
    let stack := push stack (parseFloat token) in
    (stack, steps ++ [{| step_token := token; step_stack := stack; step_action := Push token |}])
  else if has SUPPORTED_OPERATORS token then
    if has UNARY_OPERATORS token then
      let '(a, stack) := pop stack in
      let result :=
        if token =? "sqrt" then Math_sqrt (ToNumber a)
        else if token =? "sin" then Math_sin M (toRadians a)
        else if token =? "cos" then Math_cos M (toRadians a)
        else if token =? "tan" then Math_tan M (toRadians a)
        else NaN in
      let stack := push stack result in
      (stack, steps ++ [{| step_token := token; step_stack := stack; step_action := ApplyTo token a |}])
    else
      let '(b, stack) := pop stack in
      let '(a, stack) := pop stack in
      let result :=
        if token =? "+" then JSOp.add a b
        else if token =? "-" then JSOp.sub a b
        else if token =? "*" then JSOp.mul a b
        else if token =? "/" then JSOp.div a b
        else if token =? "^" then Math_pow M (ToNumber a) (ToNumber b)
        else NaN in
      let stack := push stack result in
      (stack, steps ++ [{| step_token := token; step_stack := stack; step_action := Apply a token b |}])
  else st.

(** The tokens that leave a step: numbers and supported operators. *)
Definition recorded (token : string) : bool :=
  isNumber token || has SUPPORTED_OPERATORS token.

Definition getEvaluationSteps (expression : string) : list EvaluationStep :=
  let tokens := split (trim expression) in
  snd (fold_left recordToken tokens ([], [])).

End StepRecorder.

(** ** The specification's reading of an RPN scan

    The definitions of this module follow the words of the specification,
    not the source: a token is a number when the whole of it is a decimal
    literal of finite value, an RPN prefix denotes a forest of expression
    trees (each number a leaf, each operator a node over the trees it
    replaces), and the partial results of the scan are the values of
    these trees. *)

Module RPNSpec.

Inductive BinOp := Plus | Minus | Times | Divide | Power.
Inductive UnOp := Sqrt | Sin | Cos | Tan.

Inductive Expr :=
| Lit (x : float)
| Un (op : UnOp) (e : Expr)
| Bin (op : BinOp) (l r : Expr).

Definition binOpOf (token : string) : option BinOp :=
  if token =? "+" then Some Plus
  else if token =? "-" then Some Minus
  else if token =? "*" then Some Times
  else if token =? "/" then Some Divide
  else if token =? "^" then Some Power
  else None.

Definition unOpOf (token : string) : option UnOp :=
  if token =? "sqrt" then Some Sqrt
  else if token =? "sin" then Some Sin
  else if token =? "cos" then Some Cos
  else if token =? "tan" then Some Tan
  else None.

(** The whole token is a decimal literal: optional sign, digits with an
    optional decimal point (at least one digit in all), optional
    exponent, and nothing else. *)
Definition isDecimalLiteral (token : string) : bool :=
  let '(_, s) := takeSign token in
  let '(_, ni, r1) := takeDigits s 0%Z 0%Z in
  let '(nf, r2) :=
    match r1 with
    | String "." r => let '(_, nf, r2) := takeDigits r 0%Z 0%Z in (nf, r2)
    | _ => (0%Z, r1)
    end in
  (0 <? ni + nf)%Z &&
  match r2 with
  | EmptyString => true
  | String c r =>
      (Ascii.eqb c "e" || Ascii.eqb c "E") &&
      let '(_, r') := takeSign r in
      let '(_, n, r'') := takeDigits r' 0%Z 0%Z in
      (0 <? n)%Z && (r'' =? "")
  end.

(** Number-Literal, in the specification's words: the whole token is a
    decimal literal and its value is finite. *)
Definition isNumberLiteral (token : string) : bool :=
  isDecimalLiteral token && isFinite (parseFloat token).

(** One token of the scan, on a forest whose head is the tree built
    last: a Number-Literal is pushed as a leaf holding its value, an
    operator replaces its operand trees by one node, left operand first,
    and any other token has no place in an RPN scan. *)
Definition scanToken (forest : list Expr) (token : string) : option (list Expr) :=
  if isNumberLiteral token then Some (Lit (parseFloat token) :: forest)
  else
    match unOpOf token, binOpOf token, forest with
    | Some op, _, e :: rest => Some (Un op e :: rest)
    | None, Some op, r :: l :: rest => Some (Bin op l r :: rest)
    | _, _, _ => None
    end.

Fixpoint scan (tokens : list string) (forest : list Expr) : option (list Expr) :=
  match tokens with
  | [] => Some forest
  | token :: rest =>
      match scanToken forest token with
      | Some forest' => scan rest forest'
      | None => None
      end
  end.

Section Denote.
Variable M : MathImpl.
Local Open Scope float_scope.

Definition applyBin (op : BinOp) (a b : float) : result float :=
  match op with
  | Plus => Ok (a + b)
  | Minus => Ok (a - b)
  | Times => Ok (a * b)
  | Divide => if b =? 0 then Throw DivisionByZero else Ok (a / b)
  | Power => Ok (Math_pow M a b)
  end.

Definition applyUn (op : UnOp) (a : float) : result float :=
  match op with
  | Sqrt => if a <? 0 then Throw SquareRootOfNegative else Ok (PrimFloat.sqrt a)
  | Sin => Ok (Math_sin M (a * (Math_PI / 180)))
  | Cos => Ok (Math_cos M (a * (Math_PI / 180)))
  | Tan => Ok (Math_tan M (a * (Math_PI / 180)))
  end.

(** The value of a tree: operands left to right, then the operator. *)
Fixpoint denote (e : Expr) : result float :=
  match e with
  | Lit x => Ok x
  | Un op e => a <- denote e ;; applyUn op a
  | Bin op l r => a <- denote l ;; b <- denote r ;; applyBin op a b
  end.

(** [holds forest stack]: the array [stack] (bottom first) holds the
    values of the trees of [forest] (last built first). *)
Definition holds (forest : list Expr) (stack : Stack) : Prop :=
  Forall2 (fun e v => denote e = Ok v) (rev forest) stack.
End Denote.

End RPNSpec.

(** ** The words of an input

    A reference reading of the tokenizer, used to state what
    [split (trim s)] returns: the maximal runs of code units that are not
    whitespace, in order.  [cur] is the word being read. *)

Definition flush (cur : string) : list string :=
  match cur with
  | EmptyString => []
  | _ => [cur]
  end.

Fixpoint wordsFrom (s : string) (cur : string) : list string :=
  match s with
  | EmptyString => flush cur
  | String c r =>
      if isWhiteSpace c then flush cur ++ wordsFrom r EmptyString
      else wordsFrom r (cur ++ String c EmptyString)
  end.

Definition words (s : string) : list string := wordsFrom s EmptyString.

(** A token as [split (trim s)] delivers it from an input that is not
    blank: not empty, and without whitespace. *)
Fixpoint noWhite (s : string) : bool :=
  match s with
  | EmptyString => true
  | String c r => negb (isWhiteSpace c) && noWhite r
  end.

Definition isWord (token : string) : bool :=
  negb (token =? "") && noWhite token.

(** The tokens the loop of [evaluateRPN] classifies as numbers and as
    binary operators (a unary operator is neither). *)
Definition isBinaryToken (token : string) : bool :=
  negb (isNumber token) && has SUPPORTED_OPERATORS token &&
  negb (has UNARY_OPERATORS token).

(** The token, after leading whitespace and an optional sign, starts with
    a digit, or with a period and a digit. *)
Definition startsLiteral (token : string) : bool :=
  match snd (takeSign (trimStart token)) with
  | String c r =>
      isDigit c ||
      (Ascii.eqb c "." && match r with String d _ => isDigit d | EmptyString => false end)
  | EmptyString => false
  end.

(** ** The page: [src/app/page.tsx]

    The component's state is the tuple of its [useState] cells and every
    handler is a transition on it.  A [Date] is its time value, and the
    clock read by [new Date()] is an argument of the handler. *)

Module Page.

Record CalculationHistory := {
  expression : string;
  result : float;
  timestamp : Z
}.

Record State := {
  st_expression : string;
  st_result : option float;
  st_error : option string;
  st_history : list CalculationHistory;
  st_showHelp : bool
}.

(** The initial values of the [useState] cells. *)
Definition initial : State :=
  {| st_expression := ""; st_result := None; st_error := None;
     st_history := []; st_showHelp := false |}.

(** [prev.slice(0, 9)] *)
Definition slice09 (prev : list CalculationHistory) : list CalculationHistory :=
  firstn 9 prev.

Section Handlers.

Variable M : MathImpl.

Definition useFromHistory (expr : string) (st : State) : State :=
  {| st_expression := expr; st_result := st_result st; st_error := None;
     st_history := st_history st; st_showHelp := st_showHelp st |}.

(** [!expression.trim()] holds of the empty string only.  Every value
    [evaluateRPN] throws is an [Error], so the [catch] shows its message
    (the fallback text of the [instanceof] test is never used). *)
Definition handleCalculate (now : Z) (st : State) : State :=
  if (trim (st_expression st) =? "")%string then
    {| st_expression := st_expression st; st_result := st_result st;
       st_error := Some "Please enter an expression";
       st_history := st_history st; st_showHelp := st_showHelp st |}
  else
    match evaluateRPN M (trim (st_expression st)) with
    | Ok calculationResult =>
        let newCalculation :=
          {| expression := trim (st_expression st);
             result := calculationResult;
             timestamp := now |} in
        {| st_expression := st_expression st;
           st_result := Some calculationResult;
           st_error := None;
           st_history := newCalculation :: slice09 (st_history st);
           st_showHelp := st_showHelp st |}
    | Throw err =>
        {| st_expression := st_expression st;
           st_result := None;
           st_error := Some (message err);
           st_history := st_history st; st_showHelp := st_showHelp st |}
    end.

Definition handleKeyPress (key : string) (now : Z) (st : State) : State :=
  if (key =? "Enter")%string then handleCalculate now st else st.

Definition clearAll (st : State) : State :=
  {| st_expression := ""; st_result := None; st_error := None;
     st_history := st_history st; st_showHelp := st_showHelp st |}.

Definition clearHistory (st : State) : State :=
  {| st_expression := st_expression st; st_result := st_result st;
     st_error := st_error st; st_history := []; st_showHelp := st_showHelp st |}.

(** The tokens of the quick-insert buttons. *)
Definition QUICK_INSERT : list string :=
  ["+"; "-"; "*"; "/"; "^"; "sqrt"; "sin"; "cos"; "tan"].

Definition quickInsertText (prev token : string) : string :=
  prev ++ (if (prev =? "")%string then "" else " ") ++ token.

Definition quickInsert (token : string) (st : State) : State :=
  {| st_expression := quickInsertText (st_expression st) token;
     st_result := st_result st; st_error := st_error st;
     st_history := st_history st; st_showHelp := st_showHelp st |}.

Definition handleHistoryClick (expr : string) (st : State) : State :=
  useFromHistory expr st.

(** [onChange] of the input and [onClick] of the help button. *)
Definition setExpression (value : string) (st : State) : State :=
  {| st_expression := value; st_result := st_result st; st_error := st_error st;
     st_history := st_history st; st_showHelp := st_showHelp st |}.

Definition toggleHelp (st : State) : State :=
  {| st_expression := st_expression st; st_result := st_result st;
     st_error := st_error st; st_history := st_history st;
     st_showHelp := negb (st_showHelp st) |}.

(** What the user can do to the page. *)
Inductive Event :=
| Change (value : string)
| Calculate (now : Z)
| KeyPress (key : string) (now : Z)
| ClearAll
| ClearHistory
| QuickInsert (token : string)
| HistoryClick (expr : string)
| ToggleHelp.

Definition handle (st : State) (ev : Event) : State :=
  match ev with
  | Change value => setExpression value st
  | Calculate now => handleCalculate now st
  | KeyPress key now => handleKeyPress key now st
  | ClearAll => clearAll st
  | ClearHistory => clearHistory st
  | QuickInsert token => quickInsert token st
  | HistoryClick expr => handleHistoryClick expr st
  | ToggleHelp => toggleHelp st
  end.

(** The state after a sequence of events. *)
Definition run (events : list Event) (st : State) : State :=
  fold_left handle events st.

(** What every handler keeps true of the history: at most ten entries,
    each one a non-blank expression with the value [evaluateRPN] returns
    for it. *)
Definition historyInvariant (st : State) : Prop :=
  (List.length (st_history st) <= 10)%nat /\
  Forall (fun h => evaluateRPN M (expression h) = Ok (result h) /\
                   allWhite (expression h) = false)
         (st_history st).

End Handlers.

End Page.

(** * Properties *)

(** ** Doubles *)

Module FloatFacts.
Local Open Scope float_scope.

Lemma SFcompare_finite_refl s m e :
  SFcompare (S754_finite s m e) (S754_finite s m e) = Some Eq.
Proof.
  destruct s; simpl; rewrite Z.compare_refl, Pos.compare_refl; reflexivity.
Qed.


Lemma isNaN_spec x : isNaN x = true <-> x = nan.
Proof.
  unfold isNaN, is_nan. rewrite eqb_spec. split.
  - intros H. apply Prim2SF_inj. change (Prim2SF nan) with S754_nan.
    destruct (Prim2SF x) as [s | s | | s m e];
      try reflexivity; try (destruct s; discriminate).
    unfold SFeqb in H. rewrite SFcompare_finite_refl in H. discriminate.
  - intros ->. reflexivity.
Qed.

Lemma finite_not_nan x : isFinite x = true -> isNaN x = false.
Proof.
  intros H. destruct (isNaN x) eqn:E; auto.
  apply isNaN_spec in E. subst x. discriminate.
Qed.





(** [x === 0] holds of the two zeros only. *)
Lemma eqb_zero_spec x : (x =? 0) = true <-> exists s, Prim2SF x = S754_zero s.
Proof.
  rewrite eqb_spec. change (Prim2SF 0) with (S754_zero false).
  destruct (Prim2SF x) as [s | s | | s m e].
  - split; [eauto | destruct s; reflexivity].
  - split; [destruct s; discriminate | intros [s' H]; discriminate].
  - split; [discriminate | intros [s' H]; discriminate].
  - split; [destruct s; discriminate | intros [s' H]; discriminate].
Qed.




End FloatFacts.

(** ** The stack *)

Lemma pop_push (stack : Stack) (x : float) : pop (push stack x) = (Num x, stack).
Proof.
  unfold push. induction stack as [| y rest IH]; [reflexivity |].
  change ((y :: rest) ++ [x]) with (y :: (rest ++ [x])).
  cbn [pop]. rewrite IH. destruct (rest ++ [x]) eqn:E; [| reflexivity].
  destruct rest; discriminate.
Qed.

Lemma push_length (stack : Stack) (x : float) :
  List.length (push stack x) = S (List.length stack).
Proof. unfold push. rewrite length_app. simpl. lia. Qed.

Lemma push_not_nil (stack : Stack) (x : float) : push stack x <> [].
Proof. unfold push. destruct stack; discriminate. Qed.

(** A non-empty array is a [push]. *)
Lemma stack_last (stack : Stack) :
  stack <> [] -> exists rest x, stack = push rest x.
Proof.
  intros H. destruct (exists_last H) as (rest & x & ->). exists rest, x. reflexivity.
Qed.

(** The shape of an array by its length, as the arity guards see it. *)
Lemma stack_shape (stack : Stack) :
  stack = [] \/ (exists x, stack = [x]) \/
  (exists rest a b, stack = push (push rest a) b).
Proof.
  destruct stack as [| x0 stack0]; [auto | right].
  destruct (@stack_last (x0 :: stack0)) as (r1 & b & E1); [discriminate |].
  destruct r1 as [| y r1'].
  - left. exists b. exact E1.
  - right. destruct (@stack_last (y :: r1')) as (r2 & a & E2); [discriminate |].
    exists r2, a, b. rewrite E1, E2. reflexivity.
Qed.

(** ** The operators on a stack with enough values *)

Section Operators.

Variable M : MathImpl.
Local Open Scope float_scope.

(** What a binary operator computes from its operands, as the [switch]
    of [processBinaryOperator] has it. *)
Lemma processBinaryOperator_push2 (rest : Stack) (a b : float) (operator : string) :
  processBinaryOperator M (push (push rest a) b) operator =
    if (operator =? "+")%string then Ok (push rest (a + b))
    else if (operator =? "-")%string then Ok (push rest (a - b))
    else if (operator =? "*")%string then Ok (push rest (a * b))
    else if (operator =? "/")%string then
      if b =? 0 then Throw DivisionByZero else Ok (push rest (a / b))
    else if (operator =? "^")%string then Ok (push rest (Math_pow M a b))
    else Throw (UnknownBinaryOperator operator).
Proof.
  unfold processBinaryOperator.
  rewrite !push_length, !pop_push. reflexivity.
Qed.

Lemma processBinaryOperator_short (stack : Stack) (operator : string) :
  (List.length stack < 2)%nat ->
  processBinaryOperator M stack operator = Throw (InsufficientOperandsFor operator).
Proof.
  intros H. unfold processBinaryOperator.
  apply Nat.ltb_lt in H. rewrite H. reflexivity.
Qed.

Lemma processUnaryOperator_push (rest : Stack) (a : float) (operator : string) :
  processUnaryOperator M (push rest a) operator =
    if (operator =? "sqrt")%string then
      if a <? 0 then Throw SquareRootOfNegative else Ok (push rest (PrimFloat.sqrt a))
    else if (operator =? "sin")%string then Ok (push rest (Math_sin M (a * (Math_PI / 180))))
    else if (operator =? "cos")%string then Ok (push rest (Math_cos M (a * (Math_PI / 180))))
    else if (operator =? "tan")%string then Ok (push rest (Math_tan M (a * (Math_PI / 180))))
    else Throw (UnknownUnaryOperator operator).
Proof.
  unfold processUnaryOperator.
  rewrite !push_length, !pop_push. reflexivity.
Qed.

Lemma processUnaryOperator_empty (operator : string) :
  processUnaryOperator M [] operator = Throw (InsufficientOperandsFor operator).
Proof. reflexivity. Qed.

End Operators.

(** ** Dispatch of operator tokens *)

Lemma processToken_binary (M : MathImpl) (stack : Stack) (operator : string) :
  In operator BINARY_OPERATORS ->
  processToken M stack operator = processBinaryOperator M stack operator.
Proof.
  intros H. simpl in H.
  repeat (destruct H as [<- | H]; [reflexivity |]). destruct H.
Qed.

Lemma processToken_unary (M : MathImpl) (stack : Stack) (operator : string) :
  In operator UNARY_OPERATORS ->
  processToken M stack operator = processUnaryOperator M stack operator.
Proof.
  intros H. simpl in H.
  repeat (destruct H as [<- | H]; [reflexivity |]). destruct H.
Qed.

(** ** The final check *)

Lemma split_trim_empty (expression : string) :
  String.length (trim expression) = 0%nat -> split (trim expression) = [""].
Proof.
  destruct (trim expression); [reflexivity | discriminate].
Qed.

Lemma evaluateRPN_unfold (M : MathImpl) (expression : string) (stack : Stack) :
  processTokens M (split (trim expression)) [] = Ok stack ->
  evaluateRPN M expression = finish stack.
Proof.
  intros H. unfold evaluateRPN.
  destruct ((expression =? "") || (String.length (trim expression) =? 0)%nat) eqn:E.
  - exfalso. apply orb_true_iff in E as [E | E].
    + apply String.eqb_eq in E. subst expression. discriminate H.
    + apply Nat.eqb_eq in E. rewrite (split_trim_empty _ E) in H. discriminate H.
  - cbv zeta. rewrite H. reflexivity.
Qed.

(** ** The loop *)

Lemma has_In (set : list string) (token : string) :
  has set token = true -> In token set.
Proof.
  unfold has. intros H. apply existsb_exists in H as (x & Hx & E).
  apply String.eqb_eq in E. subst x. exact Hx.
Qed.

Lemma processTokens_app (M : MathImpl) (tokens1 tokens2 : list string) (stack : Stack) :
  processTokens M (tokens1 ++ tokens2) stack =
    (stack' <- processTokens M tokens1 stack ;; processTokens M tokens2 stack').
Proof.
  revert stack. induction tokens1 as [| token rest IH]; intros stack; [reflexivity |].
  simpl. destruct (processToken M stack token) as [stack1 | e]; simpl; auto.
Qed.

Lemma split_not_nil (s : string) : split s <> [].
Proof.
  unfold split. generalize EmptyString, false.
  induction s as [| c r IH]; intros cur inRun; simpl; [discriminate |].
  destruct (isWhiteSpace c); [destruct inRun |]; try apply IH; discriminate.
Qed.

(** Every value the loop body leaves behind comes from a [push]. *)
Lemma processToken_pushes (M : MathImpl) (stack stack' : Stack) (token : string) :
  processToken M stack token = Ok stack' -> exists rest x, stack' = push rest x.
Proof.
  unfold processToken, processUnaryOperator, processBinaryOperator.
  repeat match goal with
         | |- context [if ?c then _ else _] => destruct c
         | |- context [let '(_, _) := pop ?s in _] => destruct (pop s)
         end;
    intros H; try discriminate H; injection H as <-; eauto.
Qed.

Lemma processToken_not_nil (M : MathImpl) (stack stack' : Stack) (token : string) :
  processToken M stack token = Ok stack' -> stack' <> [].
Proof.
  intros H. apply processToken_pushes in H as (rest & x & ->). apply push_not_nil.
Qed.

Lemma processTokens_not_nil (M : MathImpl) (tokens : list string) (stack stack' : Stack) :
  tokens <> [] -> processTokens M tokens stack = Ok stack' -> stack' <> [].
Proof.
  revert stack. induction tokens as [| token rest IH]; intros stack Hne H; [congruence |].
  simpl in H. destruct (processToken M stack token) as [stack1 | e] eqn:E; [| discriminate].
  simpl in H. destruct rest as [| token' rest'].
  - injection H as <-. eapply processToken_not_nil; eauto.
  - eapply IH; eauto. discriminate.
Qed.

(** The loop never throws the error of the final check. *)
Lemma processToken_error (M : MathImpl) (stack : Stack) (token : string) :
  processToken M stack token <> Throw InsufficientOperands.
Proof.
  unfold processToken, processUnaryOperator, processBinaryOperator.
  repeat match goal with
         | |- context [if ?c then _ else _] => destruct c
         | |- context [let '(_, _) := pop ?s in _] => destruct (pop s)
         end;
    discriminate.
Qed.

Lemma processTokens_error (M : MathImpl) (tokens : list string) (stack : Stack) :
  processTokens M tokens stack <> Throw InsufficientOperands.
Proof.
  revert stack. induction tokens as [| token rest IH]; intros stack; [discriminate |].
  simpl. destruct (processToken M stack token) as [stack1 | e] eqn:E; simpl.
  - apply IH.
  - intros H. injection H as ->. exact (processToken_error _ _ _ E).
Qed.

(** Number tokens only: each one is pushed, in order. *)
Lemma processTokens_numbers (M : MathImpl) (tokens : list string) (stack : Stack) :
  forallb isNumber tokens = true ->
  processTokens M tokens stack = Ok (stack ++ map parseFloat tokens).
Proof.
  revert stack. induction tokens as [| token rest IH]; intros stack H; simpl.
  - rewrite app_nil_r. reflexivity.
  - simpl in H. apply andb_true_iff in H as [Ht Hr].
    unfold processToken. rewrite Ht. simpl. rewrite (IH _ Hr).
    unfold push. rewrite <- app_assoc. reflexivity.
Qed.

Lemma isNumber_finite (token : string) :
  isNumber token = true -> isFinite (parseFloat token) = true.
Proof. unfold isNumber. intros H. apply andb_true_iff in H. tauto. Qed.

Lemma finish_Ok (stack : Stack) (v : float) : finish stack = Ok v -> stack = [v].
Proof.
  destruct stack as [| x [| y rest]]; simpl; intros H; try discriminate H.
  injection H as ->. reflexivity.
Qed.

(** ** The scan against the specification's reading *)

Section Refinement.

Variable M : MathImpl.
Import RPNSpec.

Lemma holds_nil : holds M [] [].
Proof. constructor. Qed.

Lemma holds_push (forest : list Expr) (stack : Stack) (e : Expr) (x : float) :
  holds M forest stack -> denote M e = Ok x -> holds M (e :: forest) (push stack x).
Proof.
  unfold holds, push. intros H He. simpl. apply Forall2_app; auto.
Qed.

Lemma holds_push_inv (forest : list Expr) (rest : Stack) (x : float) :
  holds M forest (push rest x) ->
  exists e forest0, forest = e :: forest0 /\ denote M e = Ok x /\ holds M forest0 rest.
Proof.
  unfold holds, push. intros H.
  apply Forall2_app_inv_r in H as (l1 & l2 & H1 & H2 & E).
  inversion H2 as [| e ? l2' ? He Hnil]; subst. inversion Hnil; subst.
  destruct forest as [| e0 forest0]; simpl in E.
  - destruct l1; discriminate.
  - apply app_inj_tail in E as [E1 E2]. subst. eauto.
Qed.

Lemma holds_nil_inv (forest : list Expr) : holds M forest [] -> forest = [].
Proof.
  unfold holds. intros H. inversion H as [E |].
  destruct forest as [| e r]; [reflexivity |].
  simpl in E. destruct (rev r); discriminate.
Qed.

Lemma processBinaryOperator_holds
      (forest : list Expr) (stack stack' : Stack) (token : string) (op : BinOp) :
  binOpOf token = Some op ->
  holds M forest stack ->
  processBinaryOperator M stack token = Ok stack' ->
  exists l r forest0, forest = r :: l :: forest0 /\ holds M (Bin op l r :: forest0) stack'.
Proof.
  intros Hop Hholds.
  destruct (stack_shape stack) as [-> | [[x ->] | (rest & a & b & ->)]].
  - rewrite processBinaryOperator_short by (simpl; lia). discriminate.
  - rewrite processBinaryOperator_short by (simpl; lia). discriminate.
  - apply holds_push_inv in Hholds as (r & forest1 & -> & Hr & Hholds).
    apply holds_push_inv in Hholds as (l & forest0 & -> & Hl & Hholds).
    rewrite processBinaryOperator_push2. unfold binOpOf in Hop.
    repeat match type of Hop with
           | (if ?c then _ else _) = _ => destruct c
           end;
      try discriminate Hop; injection Hop as <-;
      try (destruct (PrimFloat.eqb b 0) eqn:Hz; [discriminate |]);
      intros H; injection H as <-;
      exists l, r, forest0; (split; [reflexivity |]);
      apply holds_push; auto;
      simpl; rewrite Hl, Hr; simpl; try rewrite Hz; reflexivity.
Qed.

Lemma processUnaryOperator_holds
      (forest : list Expr) (stack stack' : Stack) (token : string) (op : UnOp) :
  unOpOf token = Some op ->
  holds M forest stack ->
  processUnaryOperator M stack token = Ok stack' ->
  exists e forest0, forest = e :: forest0 /\ holds M (Un op e :: forest0) stack'.
Proof.
  intros Hop Hholds.
  destruct stack as [| x0 stack0]; [discriminate |].
  destruct (@stack_last (x0 :: stack0)) as (rest & a & E); [discriminate |].
  rewrite E in *. clear E.
  apply holds_push_inv in Hholds as (e & forest0 & -> & He & Hholds).
  rewrite processUnaryOperator_push. unfold unOpOf in Hop.
  repeat match type of Hop with
         | (if ?c then _ else _) = _ => destruct c
         end;
    try discriminate Hop; injection Hop as <-;
    try (destruct (PrimFloat.ltb a 0) eqn:Hneg; [discriminate |]);
    intros H; injection H as <-;
    exists e, forest0; (split; [reflexivity |]);
    apply holds_push; auto;
    simpl; rewrite He; simpl; try rewrite Hneg; reflexivity.
Qed.

(** A Number-Literal is a number for [isNumber]. *)
Lemma isNumberLiteral_isNumber (token : string) :
  isNumberLiteral token = true -> isNumber token = true.
Proof.
  unfold isNumberLiteral, isNumber. intros H.
  apply andb_true_iff in H as [_ H].
  rewrite H, (FloatFacts.finite_not_nan _ H). reflexivity.
Qed.

Lemma processToken_holds (forest : list Expr) (stack stack' : Stack) (token : string) :
  (isNumber token = true -> isNumberLiteral token = true) ->
  holds M forest stack ->
  processToken M stack token = Ok stack' ->
  exists forest', scanToken forest token = Some forest' /\ holds M forest' stack'.
Proof.
  intros Hlit Hholds. unfold processToken, scanToken.
  destruct (isNumber token) eqn:Hnum.
  - rewrite (Hlit eq_refl).
    intros H. injection H as <-. eexists. split; [reflexivity |].
    apply holds_push; auto.
  - assert (Hnl : isNumberLiteral token = false).
    { destruct (isNumberLiteral token) eqn:E; [| reflexivity].
      apply isNumberLiteral_isNumber in E. congruence. }
    rewrite Hnl.
    destruct (has SUPPORTED_OPERATORS token) eqn:Hop; [| discriminate].
    apply has_In in Hop. simpl in Hop.
    destruct (has UNARY_OPERATORS token) eqn:Hun; intros H.
    + assert (exists op, unOpOf token = Some op) as [op Hu].
      { apply has_In in Hun. simpl in Hun.
        repeat (destruct Hun as [<- | Hun]; [eexists; reflexivity |]). destruct Hun. }
      destruct (processUnaryOperator_holds _ _ _ _ _ Hu Hholds H)
        as (e & forest0 & -> & Hh).
      rewrite Hu. eauto.
    + assert (unOpOf token = None /\ exists op, binOpOf token = Some op) as [Hu [op Hb]].
      { repeat (destruct Hop as [<- | Hop];
                [first [discriminate Hun | split; [reflexivity | eexists; reflexivity]] |]).
        destruct Hop. }
      destruct (processBinaryOperator_holds _ _ _ _ _ Hb Hholds H)
        as (l & r & forest0 & -> & Hh).
      rewrite Hu, Hb. eauto.
Qed.

Lemma processTokens_holds (tokens : list string) (forest : list Expr) (stack stack' : Stack) :
  Forall (fun token => isNumber token = true -> isNumberLiteral token = true) tokens ->
  holds M forest stack ->
  processTokens M tokens stack = Ok stack' ->
  exists forest', scan tokens forest = Some forest' /\ holds M forest' stack'.
Proof.
  revert forest stack.
  induction tokens as [| token rest IH]; intros forest stack Hlit Hholds H.
  - injection H as <-. exists forest. auto.
  - inversion Hlit as [| ? ? Ht Hrest]; subst.
    simpl in H. destruct (processToken M stack token) as [stack1 | e] eqn:E; [| discriminate].
    destruct (processToken_holds _ _ _ _ Ht Hholds E) as (forest1 & Hs & Hh).
    simpl. rewrite Hs. eapply IH; eauto.
Qed.

End Refinement.

(** ** Claims about [evaluateRPN] and [validateRPN] *)

Section Claims.

Variable M : MathImpl.
Local Open Scope float_scope.

(** C3. [validateRPN] is a total boolean function (it cannot raise), and
    it returns [true] exactly when [evaluateRPN] returns a value,
    [false] exactly when [evaluateRPN] throws. *)
Theorem validateRPN_iff_evaluateRPN_succeeds (expression : string) :
  (validateRPN M expression = true <-> exists v, evaluateRPN M expression = Ok v) /\
  (validateRPN M expression = false <-> exists e, evaluateRPN M expression = Throw e).
Proof.
  unfold validateRPN.
  destruct (evaluateRPN M expression) as [v | e]; split; split;
    try discriminate; try reflexivity; eauto;
    intros [x H]; discriminate H.
Qed.

(** C4. A binary operator token met by the loop of [evaluateRPN] on a
    stack whose two last pushed values are [a] then [b] pops [b], then
    [a], and pushes the single value [a op b], operands in left-to-right
    order (for [/], unless the divisor is zero, the case of C5); on a
    stack of fewer than two values it throws the insufficient-operands
    error naming the operator; and ["10 3 -"] evaluates to 7. *)
Theorem binary_operator_operand_order :
  (forall (rest : Stack) (a b : float),
      processToken M (push (push rest a) b) "+" = Ok (push rest (a + b)) /\
      processToken M (push (push rest a) b) "-" = Ok (push rest (a - b)) /\
      processToken M (push (push rest a) b) "*" = Ok (push rest (a * b)) /\
      processToken M (push (push rest a) b) "/" =
        (if b =? 0 then Throw DivisionByZero else Ok (push rest (a / b))) /\
      processToken M (push (push rest a) b) "^" = Ok (push rest (Math_pow M a b))) /\
  (forall (stack : Stack) (operator : string),
      In operator BINARY_OPERATORS ->
      (List.length stack < 2)%nat ->
      processToken M stack operator = Throw (InsufficientOperandsFor operator) /\
      kind (InsufficientOperandsFor operator) = InsufficientOperandsError) /\
  evaluateRPN M "10 3 -" = Ok 7.
Proof.
  split; [| split].
  - intros rest a b.
    repeat split;
      (rewrite processToken_binary by (simpl; tauto));
      rewrite processBinaryOperator_push2; reflexivity.
  - intros stack operator Hop Hlen. split; [| reflexivity].
    rewrite processToken_binary by assumption.
    apply processBinaryOperator_short. assumption.
  - reflexivity.
Qed.

(** C5. On popped operands [(a, b)], the [/] operator throws the
    division-by-zero error if and only if [b === 0], that is when [b] is
    one of the two zeros, and otherwise pushes [a / b]. *)
Theorem division_by_zero_iff_divisor_zero (rest : Stack) (a b : float) :
  (processToken M (push (push rest a) b) "/" = Throw DivisionByZero <-> (b =? 0) = true) /\
  ((b =? 0) = false -> processToken M (push (push rest a) b) "/" = Ok (push rest (a / b))) /\
  ((b =? 0) = true <-> b = 0 \/ b = -0) /\
  kind DivisionByZero = DivisionByZeroError.
Proof.
  rewrite processToken_binary by (simpl; tauto).
  rewrite processBinaryOperator_push2. cbn [String.eqb Ascii.eqb Bool.eqb].
  repeat split.
  - destruct (b =? 0); [reflexivity | discriminate].
  - intros ->. reflexivity.
  - intros ->. reflexivity.
  - intros H. apply FloatFacts.eqb_zero_spec in H as [[|] H]; [right | left];
      apply Prim2SF_inj; rewrite H; reflexivity.
  - intros [-> | ->]; reflexivity.
Qed.

(** C6. On a popped operand [a]: [sqrt] throws the negative-square-root
    error if and only if [a < 0] and otherwise pushes the square root of
    [a]; [sin], [cos] and [tan] push the engine's function applied to
    [a] converted from degrees to radians, [a * (PI / 180)]. *)
Theorem unary_operator_semantics (rest : Stack) (a : float) :
  (processToken M (push rest a) "sqrt" = Throw SquareRootOfNegative <-> (a <? 0) = true) /\
  ((a <? 0) = false ->
     processToken M (push rest a) "sqrt" = Ok (push rest (PrimFloat.sqrt a))) /\
  processToken M (push rest a) "sin" = Ok (push rest (Math_sin M (a * (Math_PI / 180)))) /\
  processToken M (push rest a) "cos" = Ok (push rest (Math_cos M (a * (Math_PI / 180)))) /\
  processToken M (push rest a) "tan" = Ok (push rest (Math_tan M (a * (Math_PI / 180)))) /\
  kind SquareRootOfNegative = NegativeSqrtError.
Proof.
  rewrite !processToken_unary by (simpl; tauto).
  rewrite !processUnaryOperator_push. cbn [String.eqb Ascii.eqb Bool.eqb].
  repeat split.
  - destruct (a <? 0); [reflexivity | discriminate].
  - intros ->. reflexivity.
  - intros ->. reflexivity.
Qed.

(** C7. The check [evaluateRPN] makes after its loop, on whatever stack
    the loop left: more than one value is the too-many-operands error,
    no value the insufficient-operands error, and a single value is
    returned.  When every token of an input is processed without a throw
    the outcome of [evaluateRPN] is this check on the final stack; ["3 4"]
    ends in the too-many-operands error. *)
Theorem final_stack_check (expression : string) (stack : Stack) :
  ((1 < List.length stack)%nat -> finish stack = Throw TooManyOperands) /\
  (List.length stack = 0%nat -> finish stack = Throw InsufficientOperands) /\
  (forall v : float, stack = [v] -> finish stack = Ok v) /\
  (processTokens M (split (trim expression)) [] = Ok stack ->
   evaluateRPN M expression = finish stack) /\
  kind InsufficientOperands = InsufficientOperandsError /\
  kind TooManyOperands = TooManyOperandsError /\
  evaluateRPN M "3 4" = Throw TooManyOperands.
Proof.
  repeat apply conj; try reflexivity.
  - intros H. destruct stack as [| v [| w rest]]; simpl in H; [lia | lia | reflexivity].
  - intros H. destruct stack; [reflexivity | discriminate H].
  - intros v ->. reflexivity.
  - apply evaluateRPN_unfold.
Qed.

(** C8, on the code.  The invariant is that after the first [i] tokens
    are processed without a throw the stack holds exactly the partial
    results of a left-to-right RPN scan of these tokens.  The loop breaks
    it on a token such as ["4foo"], which is no Number-Literal and has no
    place in an RPN scan but which [isNumber] accepts: after the first two
    tokens of ["3 4foo +"] the stack is [[3; 4]] and there is no scan.
    On every prefix in which each token that [isNumber] accepts is a
    Number-Literal the invariant holds: the scan builds one expression
    tree per stack slot (a number is a leaf, an operator a node over the
    trees it replaced), each slot holds the value of its tree, and the
    loop goes on from that stack. *)
Theorem stack_holds_partial_results :
  (processTokens M (firstn 2 (split (trim "3 4foo +"))) [] = Ok [3; 4] /\
   RPNSpec.scan (firstn 2 (split (trim "3 4foo +"))) [] = None) /\
  (forall (expression : string) (i : nat) (stack : Stack),
      let tokens := split (trim expression) in
      Forall (fun token => isNumber token = true -> RPNSpec.isNumberLiteral token = true)
             (firstn i tokens) ->
      processTokens M (firstn i tokens) [] = Ok stack ->
      (exists forest,
          RPNSpec.scan (firstn i tokens) [] = Some forest /\
          RPNSpec.holds M forest stack) /\
      processTokens M tokens [] = processTokens M (skipn i tokens) stack).
Proof.
  split; [split; reflexivity |].
  intros expression i stack tokens Hlit H. split.
  - eapply processTokens_holds; eauto. apply holds_nil.
  - rewrite <- (firstn_skipn i tokens) at 1.
    rewrite processTokens_app, H. reflexivity.
Qed.

(** C9. Once the loop of [evaluateRPN] has processed at least one token
    without a throw the stack is not empty, so [evaluateRPN] never ends
    in the insufficient-operands error of its final check; an operator
    alone fails in its arity guard. *)
Theorem final_stack_never_empty :
  (forall (expression : string) (i : nat) (stack : Stack),
      (0 < i)%nat ->
      processTokens M (firstn i (split (trim expression))) [] = Ok stack ->
      stack <> []) /\
  (forall expression : string, evaluateRPN M expression <> Throw InsufficientOperands) /\
  (forall operator : string,
      In operator SUPPORTED_OPERATORS ->
      evaluateRPN M operator = Throw (InsufficientOperandsFor operator)).
Proof.
  split; [| split].
  - intros expression i stack Hi H.
    eapply processTokens_not_nil; [| exact H].
    destruct (split (trim expression)) eqn:E; [exact (False_ind _ (split_not_nil _ E)) |].
    destruct i; [lia | discriminate].
  - intros expression. unfold evaluateRPN.
    destruct ((expression =? "")%string || (String.length (trim expression) =? 0)%nat);
      [discriminate |].
    cbv zeta.
    destruct (processTokens M (split (trim expression)) []) as [stack | e] eqn:E; simpl.
    + apply processTokens_not_nil in E; [| apply split_not_nil].
      destruct stack as [| v [| w rest]]; [congruence | discriminate | discriminate].
    + intros H. injection H as ->. exact (processTokens_error _ _ _ E).
  - intros operator H. simpl in H.
    repeat (destruct H as [<- | H]; [reflexivity |]). destruct H.
Qed.

(** C2, as amended. When [evaluateRPN] returns a value, that value is
    the single double the loop left on the stack; it is finite when
    every token of the input is a number, and otherwise it is whatever
    the operators computed. *)
Theorem result_is_final_stack_value (expression : string) (v : float) :
  evaluateRPN M expression = Ok v ->
  processTokens M (split (trim expression)) [] = Ok [v] /\
  (forallb isNumber (split (trim expression)) = true -> isFinite v = true).
Proof.
  intros H.
  assert (Hloop : processTokens M (split (trim expression)) [] = Ok [v]).
  { unfold evaluateRPN in H.
    destruct ((expression =? "")%string || (String.length (trim expression) =? 0)%nat);
      [discriminate |].
    cbv zeta in H.
    destruct (processTokens M (split (trim expression)) []) as [stack | e];
      [| discriminate].
    simpl in H. apply finish_Ok in H. subst stack. reflexivity. }
  split; [exact Hloop |].
  intros Hnum. rewrite (processTokens_numbers _ _ _ Hnum) in Hloop.
  injection Hloop as Hloop. simpl in Hloop.
  destruct (split (trim expression)) as [| token [| token' rest]]; try discriminate.
  injection Hloop as <-. simpl in Hnum. rewrite andb_true_r in Hnum.
  apply isNumber_finite. assumption.
Qed.

(** C1, on the code. [isNumber] accepts a token as soon as a prefix of
    it is a decimal literal of finite value: ["1.2.3"] and ["4foo"] are
    pushed as 1.2 and 4 although neither is a Number-Literal, so
    ["3 4foo +"] evaluates to 7 instead of failing with the
    unknown-token error.  The rest of the claim holds: a Number-Literal
    is a number for [isNumber], a bare sign is not, and a token that
    [isNumber] rejects and that is no operator makes the loop throw the
    unknown-token error naming it. *)
Theorem isNumber_accepts_literal_prefix :
  (isNumber "1.2.3" = true /\ RPNSpec.isNumberLiteral "1.2.3" = false /\
   evaluateRPN M "1.2.3" = Ok 1.2) /\
  (isNumber "4foo" = true /\ RPNSpec.isNumberLiteral "4foo" = false /\
   evaluateRPN M "3 4foo +" = Ok 7) /\
  (isNumber "+" = false /\ isNumber "-" = false) /\
  (forall token : string, RPNSpec.isNumberLiteral token = true -> isNumber token = true) /\
  (forall (stack : Stack) (token : string),
      isNumber token = false ->
      has SUPPORTED_OPERATORS token = false ->
      processToken M stack token = Throw (UnknownToken token) /\
      kind (UnknownToken token) = UnknownTokenError).
Proof.
  split; [| split; [| split; [| split]]].
  - repeat split; reflexivity.
  - repeat split; reflexivity.
  - split; reflexivity.
  - intros token H. unfold RPNSpec.isNumberLiteral in H. unfold isNumber.
    apply andb_true_iff in H as [_ H].
    rewrite H, (FloatFacts.finite_not_nan _ H). reflexivity.
  - intros stack token Hnum Hop. split; [| reflexivity].
    unfold processToken. rewrite Hnum, Hop. reflexivity.
Qed.

End Claims.

(** ** The step recorder *)

Section StepClaims.

Variable M : MathImpl.
Local Open Scope float_scope.




End StepClaims.

(** ** The claims at concrete inputs *)

Section Instances.

Local Open Scope float_scope.

(** C2 as stated fails: [evaluateRPN] returns the overflow of a product,
    +Infinity, and the NaN obtained by multiplying it by zero. *)
Lemma evaluateRPN_returns_non_finite :
  (forall M : MathImpl, evaluateRPN M "1e308 10 *" = Ok infinity) /\
  isFinite infinity = false /\
  (forall M : MathImpl, evaluateRPN M "1e308 10 * 0 *" = Ok NaN) /\
  isFinite NaN = false /\ isNaN NaN = true.
Proof. repeat split; reflexivity. Qed.

(** The examples of the specification that do not depend on the engine's
    [Math] functions. *)
Example evaluateRPN_examples (M : MathImpl) :
  evaluateRPN M "3 4 +" = Ok 7 /\
  evaluateRPN M "3 4 + 5 *" = Ok 35 /\
  evaluateRPN M "9 sqrt" = Ok 3 /\
  evaluateRPN M "  3   4 +  " = Ok 7 /\
  evaluateRPN M "8 0 /" = Throw DivisionByZero /\
  evaluateRPN M "-4 sqrt" = Throw SquareRootOfNegative /\
  evaluateRPN M "+" = Throw (InsufficientOperandsFor "+") /\
  evaluateRPN M "" = Throw ExpressionEmpty /\
  evaluateRPN M "   " = Throw ExpressionEmpty /\
  evaluateRPN M "3 foo +" = Throw (UnknownToken "foo").
Proof. repeat split; reflexivity. Qed.

(** The result of [^] is returned as the engine computed it. *)
Example evaluateRPN_power_unchecked (M : MathImpl) :
  evaluateRPN M "-8 0.5 ^" = Ok (Math_pow M (-8) 0.5).
Proof. reflexivity. Qed.

(** The conversion to radians multiplies by the quotient [PI / 180]; in
    doubles this is not the quotient of the product [a * PI] by 180. *)
Example toRadians_grouping :
  toRadians (Num 3) = 3 * (Math_PI / 180) /\
  (3 * Math_PI / 180 =? toRadians (Num 3)) = false.
Proof. split; reflexivity. Qed.

Lemma isNumber_accepts_literal_prefix_witness :
  RPNSpec.isNumberLiteral "-2.5e3" = true /\
  (forall M : MathImpl, isNumber "-2.5e3" = true) /\
  isNumber "foo" = false /\
  has SUPPORTED_OPERATORS "foo" = false /\
  (forall M : MathImpl, processToken M [3] "foo" = Throw (UnknownToken "foo")).
Proof.
  split; [reflexivity |]. split; [| split; [reflexivity | split; [reflexivity |]]].
  - intros M.
    destruct (isNumber_accepts_literal_prefix M) as (_ & _ & _ & H & _).
    apply H. reflexivity.
  - intros M.
    destruct (isNumber_accepts_literal_prefix M) as (_ & _ & _ & _ & H).
    apply H; reflexivity.
Defined.

Lemma result_is_final_stack_value_witness :
  (forall M : MathImpl, evaluateRPN M "2.5" = Ok 2.5) /\
  (forall M : MathImpl, processTokens M (split (trim "2.5")) [] = Ok [2.5]) /\
  forallb isNumber (split (trim "2.5")) = true /\
  (forall M : MathImpl, isFinite 2.5 = true).
Proof.
  split; [reflexivity |]. split; [| split; [reflexivity |]].
  - intros M. apply (result_is_final_stack_value M "2.5" 2.5). reflexivity.
  - intros M. apply (result_is_final_stack_value M "2.5" 2.5); reflexivity.
Defined.

Lemma validateRPN_iff_evaluateRPN_succeeds_witness :
  (forall M : MathImpl, validateRPN M "3 4 +" = true) /\
  (forall M : MathImpl, validateRPN M "3 +" = false).
Proof.
  split; intros M.
  - apply (validateRPN_iff_evaluateRPN_succeeds M "3 4 +"). exists 7. reflexivity.
  - apply (validateRPN_iff_evaluateRPN_succeeds M "3 +").
    exists (InsufficientOperandsFor "+"). reflexivity.
Defined.

Lemma binary_operator_operand_order_witness :
  In "-"%string BINARY_OPERATORS /\
  (List.length [10] < 2)%nat /\
  (forall M : MathImpl, processToken M [10] "-" = Throw (InsufficientOperandsFor "-")).
Proof.
  split; [simpl; tauto |]. split; [simpl; lia |].
  intros M. apply (binary_operator_operand_order M); simpl; [tauto | lia].
Defined.

Lemma division_by_zero_iff_divisor_zero_witness :
  (2 =? 0) = false /\
  (forall M : MathImpl, processToken M [8; 2] "/" = Ok [4]) /\
  (0 =? 0) = true /\
  (forall M : MathImpl, processToken M [8; 0] "/" = Throw DivisionByZero).
Proof.
  split; [reflexivity |]. split; [| split; [reflexivity |]].
  - intros M. apply (division_by_zero_iff_divisor_zero M [] 8 2). reflexivity.
  - intros M. apply (division_by_zero_iff_divisor_zero M [] 8 0). reflexivity.
Defined.

Lemma unary_operator_semantics_witness :
  (9 <? 0) = false /\
  (forall M : MathImpl, processToken M [9] "sqrt" = Ok [3]) /\
  (-4 <? 0) = true /\
  (forall M : MathImpl, processToken M [-4] "sqrt" = Throw SquareRootOfNegative).
Proof.
  split; [reflexivity |]. split; [| split; [reflexivity |]].
  - intros M. apply (unary_operator_semantics M [] 9). reflexivity.
  - intros M. apply (unary_operator_semantics M [] (-4)). reflexivity.
Defined.

Lemma final_stack_check_witness :
  (forall M : MathImpl, processTokens M (split (trim "3 4 +")) [] = Ok [7]) /\
  (forall M : MathImpl, evaluateRPN M "3 4 +" = finish [7]) /\
  (forall M : MathImpl, finish [7] = Ok 7) /\
  List.length ([] : Stack) = 0%nat /\
  (forall M : MathImpl, finish [] = Throw InsufficientOperands) /\
  (1 < List.length [3; 4])%nat /\
  (forall M : MathImpl, finish [3; 4] = Throw TooManyOperands).
Proof.
  split; [intros M; reflexivity |].
  split.
  { intros M. destruct (final_stack_check M "3 4 +" [7]) as (_ & _ & _ & H & _).
    apply H. reflexivity. }
  split.
  { intros M. destruct (final_stack_check M "3 4 +" [7]) as (_ & _ & H & _).
    apply H. reflexivity. }
  split; [reflexivity |].
  split.
  { intros M. destruct (final_stack_check M "" []) as (_ & H & _).
    apply H. reflexivity. }
  split; [simpl; lia |].
  intros M. destruct (final_stack_check M "3 4" [3; 4]) as (H & _).
  apply H. simpl. lia.
Defined.

Lemma stack_holds_partial_results_witness :
  Forall (fun token => isNumber token = true -> RPNSpec.isNumberLiteral token = true)
         (firstn 3 (split (trim "3 4 + 2 *"))) /\
  (forall M : MathImpl,
      processTokens M (firstn 3 (split (trim "3 4 + 2 *"))) [] = Ok [7]) /\
  (forall M : MathImpl,
      exists forest,
        RPNSpec.scan (firstn 3 (split (trim "3 4 + 2 *"))) [] = Some forest /\
        RPNSpec.holds M forest [7]).
Proof.
  assert (Hlit : Forall (fun token => isNumber token = true ->
                                      RPNSpec.isNumberLiteral token = true)
                        (firstn 3 (split (trim "3 4 + 2 *")))).
  { repeat constructor; intros H; first [reflexivity | vm_compute in H; discriminate H]. }
  split; [exact Hlit |]. split; intros M; [reflexivity |].
  apply (proj2 (stack_holds_partial_results M) "3 4 + 2 *" 3%nat [7] Hlit). reflexivity.
Defined.

Lemma final_stack_never_empty_witness :
  (0 < 1)%nat /\
  (forall M : MathImpl, processTokens M (firstn 1 (split (trim "5 sqrt"))) [] = Ok [5]) /\
  (forall M : MathImpl, [5] <> ([] : Stack)) /\
  In "sqrt"%string SUPPORTED_OPERATORS /\
  (forall M : MathImpl, evaluateRPN M "sqrt" = Throw (InsufficientOperandsFor "sqrt")).
Proof.
  split; [lia |]. split; [reflexivity |]. split; [| split; [simpl; tauto |]].
  - intros M. apply (proj1 (final_stack_never_empty M) "5 sqrt" 1%nat [5]); [lia | reflexivity].
  - intros M. apply (final_stack_never_empty M). simpl. tauto.
Defined.


End Instances.

(** * Further properties *)

(** ** The tokenizer: [trim] and [split] *)

Section Tokenizer.

Lemma append_empty_r (s : string) : (s ++ "")%string = s.
Proof. induction s as [| c r IH]; simpl; [| rewrite IH]; reflexivity. Qed.

Lemma append_assoc (a b c : string) : ((a ++ b) ++ c)%string = (a ++ b ++ c)%string.
Proof. induction a as [| x r IH]; simpl; [| rewrite IH]; reflexivity. Qed.

Lemma append_snoc_not_empty (cur : string) (c : ascii) :
  (cur ++ String c "")%string <> "".
Proof. destruct cur; discriminate. Qed.

Lemma flush_not_empty (cur : string) : cur <> "" -> flush cur = [cur].
Proof. destruct cur; [congruence | reflexivity]. Qed.

Lemma allWhite_wordsFrom (s cur : string) :
  allWhite s = true -> wordsFrom s cur = flush cur.
Proof.
  revert cur. induction s as [| c r IH]; intros cur H; simpl in *; [reflexivity |].
  apply andb_true_iff in H as [Hc Hr]. rewrite Hc, (IH _ Hr). apply app_nil_r.
Qed.

Lemma wordsFrom_not_nil (s cur : string) : cur <> "" -> wordsFrom s cur <> [].
Proof.
  revert cur. induction s as [| c r IH]; intros cur H; simpl.
  - rewrite flush_not_empty by assumption. discriminate.
  - destruct (isWhiteSpace c).
    + rewrite flush_not_empty by assumption. discriminate.
    + apply IH, append_snoc_not_empty.
Qed.

Lemma allWhite_trimEnd (s : string) : allWhite (trimEnd s) = allWhite s.
Proof.
  induction s as [| c r IH]; [reflexivity |].
  cbn [trimEnd]. destruct (allWhite (String c r)) eqn:E; [reflexivity |].
  cbn [allWhite] in *. rewrite IH. exact E.
Qed.

Lemma wordsFrom_trimEnd (s cur : string) : wordsFrom (trimEnd s) cur = wordsFrom s cur.
Proof.
  revert cur. induction s as [| c r IH]; intros cur; [reflexivity |].
  cbn [trimEnd]. destruct (allWhite (String c r)) eqn:E.
  - rewrite (allWhite_wordsFrom _ cur E). reflexivity.
  - cbn [wordsFrom]. rewrite !IH. reflexivity.
Qed.

Lemma words_trimStart (s : string) : words (trimStart s) = words s.
Proof.
  unfold words. induction s as [| c r IH]; [reflexivity |].
  simpl. destruct (isWhiteSpace c) eqn:E; [exact IH |].
  simpl. rewrite E. reflexivity.
Qed.

Lemma words_trim (s : string) : words (trim s) = words s.
Proof. unfold trim, words. rewrite wordsFrom_trimEnd. apply words_trimStart. Qed.

(** What [trimStart] leaves: nothing, of a blank string, or a string that
    starts with a code unit that is not whitespace. *)
Lemma trimStart_cases (s : string) :
  (trimStart s = "" /\ allWhite s = true) \/
  (exists c r, trimStart s = String c r /\ isWhiteSpace c = false /\ allWhite s = false).
Proof.
  induction s as [| c r IH]; [left; split; reflexivity |].
  simpl. destruct (isWhiteSpace c) eqn:E; simpl.
  - exact IH.
  - right. exists c, r. auto.
Qed.

Lemma trim_empty_iff (s : string) : trim s = "" <-> allWhite s = true.
Proof.
  unfold trim.
  destruct (trimStart_cases s) as [[E H] | (c & r & E & Hc & H)]; rewrite E, H.
  - split; reflexivity.
  - cbn [trimEnd allWhite]. rewrite Hc. simpl. split; discriminate.
Qed.

Lemma splitFrom_trimEnd (s : string) :
  (forall cur, cur <> "" -> splitFrom (trimEnd s) cur false = wordsFrom s cur) /\
  (allWhite s = false -> splitFrom (trimEnd s) "" true = wordsFrom s "").
Proof.
  induction s as [| c r [IHa IHb]]; split.
  - intros cur H. simpl. rewrite flush_not_empty by assumption. reflexivity.
  - discriminate.
  - intros cur H. cbn [trimEnd]. destruct (allWhite (String c r)) eqn:E.
    + rewrite allWhite_wordsFrom by assumption.
      rewrite flush_not_empty by assumption. reflexivity.
    + cbn [allWhite] in E. cbn [splitFrom wordsFrom].
      destruct (isWhiteSpace c) eqn:Hc.
      * rewrite flush_not_empty by assumption. simpl in E.
        rewrite (IHb E). reflexivity.
      * apply IHa, append_snoc_not_empty.
  - intros E. cbn [trimEnd]. rewrite E. cbn [allWhite] in E.
    cbn [splitFrom wordsFrom]. destruct (isWhiteSpace c) eqn:Hc.
    + simpl in E. exact (IHb E).
    + apply IHa, append_snoc_not_empty.
Qed.

(** The tokens of an input are its words, and the one empty token when
    it has none. *)
Lemma split_trim_words (s : string) :
  split (trim s) = match words s with [] => [""] | _ :: _ => words s end.
Proof.
  rewrite <- (words_trimStart s). unfold trim, split.
  destruct (trimStart_cases s) as [[E H] | (c & r & E & Hc & H)]; rewrite E.
  - reflexivity.
  - cbn [trimEnd allWhite]. rewrite Hc. cbn [andb splitFrom]. rewrite Hc.
    unfold words. cbn [wordsFrom]. rewrite Hc.
    rewrite (proj1 (splitFrom_trimEnd r)) by discriminate.
    destruct (wordsFrom r ("" ++ String c "")%string) eqn:Ew; [| reflexivity].
    exfalso. revert Ew. apply wordsFrom_not_nil. discriminate.
Qed.

Lemma words_nil_iff (s : string) : words s = [] <-> allWhite s = true.
Proof.
  split.
  - intros H. rewrite <- (words_trimStart s) in H.
    destruct (trimStart_cases s) as [[E Hw] | (c & r & E & Hc & Hw)]; [assumption |].
    rewrite E in H. unfold words in H. cbn [wordsFrom] in H. rewrite Hc in H.
    exfalso. revert H. apply wordsFrom_not_nil. discriminate.
  - intros H. apply allWhite_wordsFrom. assumption.
Qed.

Lemma noWhite_snoc (cur : string) (c : ascii) :
  noWhite cur = true -> isWhiteSpace c = false ->
  noWhite (cur ++ String c "") = true.
Proof.
  intros H Hc. induction cur as [| x r IH]; simpl in *.
  - rewrite Hc. reflexivity.
  - apply andb_true_iff in H as [Hx Hr]. rewrite Hx, (IH Hr). reflexivity.
Qed.

Lemma wordsFrom_isWord (s cur : string) :
  noWhite cur = true -> Forall (fun w => isWord w = true) (wordsFrom s cur).
Proof.
  assert (Hflush : forall cur, noWhite cur = true ->
                               Forall (fun w => isWord w = true) (flush cur)).
  { intros [| c r] H; constructor; [| constructor].
    unfold isWord. rewrite H. reflexivity. }
  revert cur. induction s as [| c r IH]; intros cur H; simpl; [auto |].
  destruct (isWhiteSpace c) eqn:Hc.
  - apply Forall_app. split; [auto | apply IH; reflexivity].
  - apply IH, noWhite_snoc; assumption.
Qed.

Lemma wordsFrom_app_white (a b cur : string) (c : ascii) :
  isWhiteSpace c = true ->
  wordsFrom (a ++ String c b) cur = wordsFrom a cur ++ words b.
Proof.
  intros Hc. revert cur. induction a as [| x r IH]; intros cur; simpl.
  - rewrite Hc. reflexivity.
  - destruct (isWhiteSpace x); [rewrite IH, app_assoc |]; auto.
Qed.

Lemma wordsFrom_word (t cur : string) :
  noWhite t = true -> wordsFrom t cur = flush (cur ++ t).
Proof.
  revert cur. induction t as [| c r IH]; intros cur H; simpl in *.
  - rewrite append_empty_r. reflexivity.
  - apply andb_true_iff in H as [Hc Hr]. apply negb_true_iff in Hc.
    rewrite Hc, (IH _ Hr), append_assoc. reflexivity.
Qed.

Lemma words_word (t : string) : isWord t = true -> words t = [t].
Proof.
  unfold isWord, words. intros H. apply andb_true_iff in H as [Hne Hw].
  rewrite wordsFrom_word by assumption. simpl.
  apply flush_not_empty. apply negb_true_iff, String.eqb_neq in Hne. assumption.
Qed.

Lemma words_concat (tokens : list string) :
  Forall (fun w => isWord w = true) tokens -> words (concat " " tokens) = tokens.
Proof.
  induction tokens as [| x rest IH]; intros H; [reflexivity |].
  inversion H as [| ? ? Hx Hrest]; subst.
  destruct rest as [| y rest'].
  - simpl. apply words_word. assumption.
  - change (concat " " (x :: y :: rest'))
      with (x ++ String " " (concat " " (y :: rest')))%string.
    unfold words at 1. rewrite wordsFrom_app_white by reflexivity.
    fold (words x). rewrite words_word, (IH Hrest) by assumption. reflexivity.
Qed.

End Tokenizer.

(** ** [evaluateRPN] on the words of its input *)

Section Evaluator.

Variable M : MathImpl.

Lemma evaluateRPN_words (s : string) :
  evaluateRPN M s =
    match words s with
    | [] => Throw ExpressionEmpty
    | _ :: _ => stack <- processTokens M (words s) [] ;; finish stack
    end.
Proof.
  unfold evaluateRPN. rewrite split_trim_words.
  destruct (allWhite s) eqn:E.
  - rewrite (proj2 (words_nil_iff s) E).
    rewrite (proj2 (trim_empty_iff s) E). simpl. rewrite orb_true_r. reflexivity.
  - destruct (words s) as [| w ws] eqn:Ew.
    + apply words_nil_iff in Ew. congruence.
    + assert (Hs : (s =? "")%string = false).
      { apply String.eqb_neq. intros ->. discriminate E. }
      assert (Ht : (String.length (trim s) =? 0)%nat = false).
      { destruct (trim s) eqn:Et; [| reflexivity].
        apply trim_empty_iff in Et. congruence. }
      rewrite Hs, Ht. reflexivity.
Qed.

(** The errors of one step of the loop, with the token they name. *)
Lemma processToken_throws (stack : Stack) (token : string) (e : Error) :
  processToken M stack token = Throw e ->
  isNumber token = false /\
  ((e = InsufficientOperandsFor token /\ has SUPPORTED_OPERATORS token = true) \/
   (e = DivisionByZero /\ token = "/") \/
   (e = SquareRootOfNegative /\ token = "sqrt") \/
   (e = UnknownToken token /\ has SUPPORTED_OPERATORS token = false)).
Proof.
  unfold processToken.
  destruct (isNumber token) eqn:Hnum; [discriminate |].
  destruct (has SUPPORTED_OPERATORS token) eqn:Hop.
  - apply has_In in Hop. simpl in Hop.
    repeat (destruct Hop as [<- | Hop]); [.. | destruct Hop];
      simpl (has UNARY_OPERATORS _); cbv iota;
      unfold processUnaryOperator, processBinaryOperator;
      repeat match goal with
             | |- context [if (List.length ?s <? ?n)%nat then _ else _] =>
                 destruct (List.length s <? n)%nat
             | |- context [let '(_, _) := pop ?s in _] => destruct (pop s)
             end;
      cbn [String.eqb Ascii.eqb Bool.eqb];
      repeat match goal with
             | |- context [if ?c then _ else _] => destruct c
             end;
      intros H; try discriminate H; injection H as <-; split; auto 6.
  - intros H. injection H as <-. auto 6.
Qed.

Lemma finish_throws (stack : Stack) (e : Error) :
  finish stack = Throw e -> e = TooManyOperands \/ e = InsufficientOperands.
Proof.
  destruct stack as [| v [| w rest]]; simpl; intros H; try discriminate H;
    injection H as <-; auto.
Qed.

(** Where the loop fails: at the first token whose step throws, with
    that step's error. *)
Lemma processTokens_throws (tokens : list string) (stack : Stack) (e : Error) :
  processTokens M tokens stack = Throw e <->
  exists before token after stack',
    tokens = before ++ token :: after /\
    processTokens M before stack = Ok stack' /\
    processToken M stack' token = Throw e.
Proof.
  split.
  - revert stack. induction tokens as [| token rest IH]; intros stack H; [discriminate |].
    simpl in H. destruct (processToken M stack token) as [stack1 | e1] eqn:E; simpl in H.
    + destruct (IH _ H) as (before & t & after & stack' & -> & Hb & Ht).
      exists (token :: before), t, after, stack'. simpl. rewrite E. auto.
    + injection H as <-. exists [], token, rest, stack. auto.
  - intros (before & token & after & stack' & -> & Hb & Ht).
    rewrite processTokens_app, Hb. simpl. rewrite Ht. reflexivity.
Qed.

Lemma evaluateRPN_ExpressionEmpty (s : string) :
  evaluateRPN M s = Throw ExpressionEmpty -> allWhite s = true.
Proof.
  rewrite evaluateRPN_words. intros H. apply words_nil_iff.
  destruct (words s) as [| w ws] eqn:Ew; [reflexivity | exfalso].
  destruct (processTokens M (w :: ws) []) as [stack | e] eqn:E; simpl in H.
  - apply finish_throws in H as [H | H]; discriminate H.
  - injection H as ->. apply processTokens_throws in E
      as (before & token & after & stack' & _ & _ & Ht).
    apply processToken_throws in Ht as [_ [[H _] | [[H _] | [[H _] | [H _]]]]];
      discriminate H.
Qed.

(** A returned value is the only value the loop left. *)
Lemma evaluateRPN_Ok_loop (s : string) (v : float) :
  evaluateRPN M s = Ok v -> processTokens M (split (trim s)) [] = Ok [v].
Proof.
  unfold evaluateRPN.
  destruct ((s =? "")%string || (String.length (trim s) =? 0)%nat); [discriminate |].
  cbv zeta.
  destruct (processTokens M (split (trim s)) []) as [stack | e]; [| discriminate].
  simpl. intros H. apply finish_Ok in H. subst stack. reflexivity.
Qed.

End Evaluator.

Section EvaluatorProperties.

Variable M : MathImpl.
Local Open Scope float_scope.

(** X1. [evaluateRPN] throws the empty-expression error exactly on the
    inputs made of whitespace only (the empty string included). *)
Theorem evaluateRPN_empty_iff_blank (s : string) :
  evaluateRPN M s = Throw ExpressionEmpty <-> allWhite s = true.
Proof.
  split; [apply evaluateRPN_ExpressionEmpty |].
  intros H. rewrite evaluateRPN_words.
  apply words_nil_iff in H. rewrite H. reflexivity.
Qed.

(** X2. Only the words of the input matter to [evaluateRPN]: two inputs
    with the same words give the same result or the same error.  So
    trimming the input first changes nothing, and [trim] is idempotent. *)
Theorem evaluateRPN_whitespace_insensitive :
  (forall s1 s2 : string, words s1 = words s2 -> evaluateRPN M s1 = evaluateRPN M s2) /\
  (forall s : string, evaluateRPN M (trim s) = evaluateRPN M s) /\
  (forall s : string, trim (trim s) = trim s).
Proof.
  split; [| split].
  - intros s1 s2 H. rewrite !evaluateRPN_words, H. reflexivity.
  - intros s. rewrite !evaluateRPN_words, words_trim. reflexivity.
  - intros s. unfold trim at 1.
    assert (Hstart : trimStart (trim s) = trim s).
    { unfold trim.
      destruct (trimStart_cases s) as [[E H] | (c & r & E & Hc & H)]; rewrite E.
      - reflexivity.
      - cbn [trimEnd allWhite]. rewrite Hc. cbn [andb trimStart]. rewrite Hc. reflexivity. }
    rewrite Hstart. unfold trim. generalize (trimStart s). clear.
    induction s as [| c r IH]; [reflexivity |].
    cbn [trimEnd]. destruct (allWhite (String c r)) eqn:E; [reflexivity |].
    cbn [trimEnd allWhite]. rewrite allWhite_trimEnd.
    cbn [allWhite] in E. rewrite E, IH. reflexivity.
Qed.

(** X3. The tokens [evaluateRPN] scans: for an input that is not blank
    they are its words, each one non-empty and free of whitespace; for a
    blank input [split (trim s)] is the single empty token. *)
Theorem tokens_are_words (s : string) :
  (allWhite s = false ->
     split (trim s) = words s /\
     split (trim s) <> [] /\
     Forall (fun token => isWord token = true) (split (trim s))) /\
  (allWhite s = true -> split (trim s) = [""]).
Proof.
  rewrite split_trim_words. split; intros H.
  - destruct (words s) as [| w ws] eqn:Ew.
    + apply words_nil_iff in Ew. congruence.
    + split; [reflexivity | split; [discriminate |]].
      rewrite <- Ew. apply wordsFrom_isWord. reflexivity.
  - apply words_nil_iff in H. rewrite H. reflexivity.
Qed.

(** X4. Joining tokens with one space and tokenizing again gives the
    tokens back, for any non-empty list of tokens that are non-empty and
    free of whitespace. *)
Theorem split_trim_concat (tokens : list string) :
  tokens <> [] ->
  Forall (fun token => isWord token = true) tokens ->
  split (trim (concat " " tokens)) = tokens.
Proof.
  intros Hne H. rewrite split_trim_words, words_concat by assumption.
  destruct tokens; [congruence | reflexivity].
Qed.

Lemma pop_length (stack : Stack) :
  List.length (snd (pop stack)) = Nat.pred (List.length stack).
Proof.
  destruct stack as [| x0 stack0]; [reflexivity |].
  destruct (@stack_last (x0 :: stack0)) as (rest & x & E); [discriminate |].
  rewrite E, pop_push, push_length. reflexivity.
Qed.

Lemma processToken_length (stack stack' : Stack) (token : string) :
  processToken M stack token = Ok stack' ->
  (List.length stack' + (if isBinaryToken token then 1 else 0) =
   List.length stack + (if isNumber token then 1 else 0))%nat.
Proof.
  unfold processToken, isBinaryToken.
  destruct (isNumber token) eqn:Hnum.
  - intros H. injection H as <-. rewrite push_length. simpl. lia.
  - destruct (has SUPPORTED_OPERATORS token); [| discriminate].
    destruct (has UNARY_OPERATORS token); simpl.
    + unfold processUnaryOperator.
      destruct (List.length stack <? 1)%nat eqn:Hlen; [discriminate |].
      apply Nat.ltb_ge in Hlen.
      pose proof (pop_length stack) as Hp. destruct (pop stack) as [a s1].
      simpl in Hp.
      repeat match goal with
             | |- context [if ?c then _ else _] => destruct c
             end;
        intros H; try discriminate H; injection H as <-;
        rewrite push_length; lia.
    + unfold processBinaryOperator.
      destruct (List.length stack <? 2)%nat eqn:Hlen; [discriminate |].
      apply Nat.ltb_ge in Hlen.
      pose proof (pop_length stack) as Hp1. destruct (pop stack) as [b s1].
      pose proof (pop_length s1) as Hp2. destruct (pop s1) as [a s2].
      simpl in Hp1, Hp2.
      repeat match goal with
             | |- context [if ?c then _ else _] => destruct c
             end;
        intros H; try discriminate H; injection H as <-;
        rewrite push_length; lia.
Qed.

Lemma processTokens_length (tokens : list string) (stack stack' : Stack) :
  processTokens M tokens stack = Ok stack' ->
  (List.length stack' + List.length (filter isBinaryToken tokens) =
   List.length stack + List.length (filter isNumber tokens))%nat.
Proof.
  revert stack. induction tokens as [| token rest IH]; intros stack H.
  - injection H as <-. reflexivity.
  - simpl in H. destruct (processToken M stack token) as [stack1 | e] eqn:E; [| discriminate].
    simpl in H. apply IH in H. apply processToken_length in E. simpl.
    destruct (isBinaryToken token), (isNumber token); simpl; lia.
Qed.

(** X5. The loop keeps count: after a run without a throw, the stack has
    grown by the number of number tokens less the number of binary
    operator tokens (a unary operator leaves its size unchanged).  So
    [evaluateRPN] returns a value only for inputs with exactly one more
    number than binary operators. *)
Theorem stack_size_accounting :
  (forall (tokens : list string) (stack stack' : Stack),
      processTokens M tokens stack = Ok stack' ->
      (List.length stack' + List.length (filter isBinaryToken tokens) =
       List.length stack + List.length (filter isNumber tokens))%nat) /\
  (forall (s : string) (v : float),
      evaluateRPN M s = Ok v ->
      List.length (filter isNumber (split (trim s))) =
        S (List.length (filter isBinaryToken (split (trim s))))).
Proof.
  split; [exact processTokens_length |].
  intros s v H.
  pose proof (evaluateRPN_Ok_loop M s v H) as Hloop.
  apply processTokens_length in Hloop. simpl in Hloop. lia.
Qed.

End EvaluatorProperties.

Section LoopProperties.

Variable M : MathImpl.
Local Open Scope float_scope.

(** X6. The loop fails fast: it throws exactly when some token's step
    throws on the stack left by the tokens before it, the error is that
    step's, and no token after it is looked at, so that appending tokens
    to a failing input does not change the error. *)
Theorem first_failing_token (tokens : list string) (stack : Stack) (e : Error) :
  (processTokens M tokens stack = Throw e <->
   exists (i : nat) (token : string) (stack' : Stack),
     nth_error tokens i = Some token /\
     processTokens M (firstn i tokens) stack = Ok stack' /\
     processToken M stack' token = Throw e) /\
  (processTokens M tokens stack = Throw e ->
   forall more : list string, processTokens M (tokens ++ more) stack = Throw e).
Proof.
  split; [split |].
  - intros H. apply processTokens_throws in H
      as (before & token & after & stack' & -> & Hb & Ht).
    exists (List.length before), token, stack'.
    rewrite nth_error_app2, Nat.sub_diag by lia.
    rewrite firstn_app, Nat.sub_diag, firstn_all, app_nil_r. auto.
  - intros (i & token & stack' & Hn & Hb & Ht).
    apply processTokens_throws.
    destruct (nth_error_split _ _ Hn) as (before & after & -> & <-).
    rewrite firstn_app, Nat.sub_diag, firstn_all, app_nil_r in Hb.
    exists before, token, after, stack'. auto.
  - intros H more. rewrite processTokens_app, H. reflexivity.
Qed.

(** X7. The errors of [evaluateRPN]: the empty-expression error, the
    too-many-operands error, division by zero, the negative square root,
    the insufficient-operands error naming a supported operator that is a
    token of the input, or the unknown-token error naming a token of the
    input that is neither a number nor a supported operator.  The
    [default] branches of the two [switch]es are never reached. *)
Theorem evaluateRPN_errors (s : string) (e : Error) :
  evaluateRPN M s = Throw e ->
  e = ExpressionEmpty \/ e = TooManyOperands \/
  e = DivisionByZero \/ e = SquareRootOfNegative \/
  (exists token : string,
      In token (split (trim s)) /\ isNumber token = false /\
      ((e = InsufficientOperandsFor token /\ has SUPPORTED_OPERATORS token = true) \/
       (e = UnknownToken token /\ has SUPPORTED_OPERATORS token = false))).
Proof.
  unfold evaluateRPN.
  destruct ((s =? "")%string || (String.length (trim s) =? 0)%nat).
  - intros H. injection H as <-. auto.
  - cbv zeta.
    destruct (processTokens M (split (trim s)) []) as [stack | e1] eqn:E; simpl.
    + intros H. pose proof (processTokens_not_nil _ _ _ _ (@split_not_nil _) E) as Hne.
      destruct stack as [| v [| w rest]]; try discriminate H; [congruence |].
      simpl in H. injection H as <-. auto.
    + intros H. injection H as ->.
      apply processTokens_throws in E as (before & token & after & stack' & Eq & _ & Ht).
      apply processToken_throws in Ht as [Hnum [[-> Hs] | [[-> _] | [[-> _] | [-> Hs]]]]];
        auto 6.
      * do 4 right. exists token. rewrite Eq. split; [apply in_elt | auto].
      * do 4 right. exists token. rewrite Eq. split; [apply in_elt | auto].
Qed.

Lemma push_app (base stack : Stack) (x : float) :
  push (base ++ stack) x = base ++ push stack x.
Proof. unfold push. rewrite app_assoc. reflexivity. Qed.

Lemma processToken_frame (base stack stack' : Stack) (token : string) :
  processToken M stack token = Ok stack' ->
  processToken M (base ++ stack) token = Ok (base ++ stack').
Proof.
  unfold processToken.
  destruct (isNumber token).
  - intros H. injection H as <-. rewrite push_app. reflexivity.
  - destruct (has SUPPORTED_OPERATORS token); [| discriminate].
    destruct (has UNARY_OPERATORS token).
    + destruct stack as [| x0 stack0]; [discriminate |].
      destruct (@stack_last (x0 :: stack0)) as (rest & a & E); [discriminate |].
      rewrite E, <- push_app, !processUnaryOperator_push.
      repeat match goal with
             | |- context [if ?c then _ else _] => destruct c
             end;
        intros H; try discriminate H; injection H as <-;
        rewrite push_app; reflexivity.
    + destruct (stack_shape stack) as [-> | [[x ->] | (rest & a & b & ->)]];
        try (rewrite processBinaryOperator_short by (simpl; lia); discriminate).
      rewrite <- !push_app, !processBinaryOperator_push2.
      repeat match goal with
             | |- context [if ?c then _ else _] => destruct c
             end;
        intros H; try discriminate H; injection H as <-;
        rewrite push_app; reflexivity.
Qed.

Lemma processTokens_frame (tokens : list string) (base stack stack' : Stack) :
  processTokens M tokens stack = Ok stack' ->
  processTokens M tokens (base ++ stack) = Ok (base ++ stack').
Proof.
  revert stack. induction tokens as [| token rest IH]; intros stack H.
  - injection H as <-. reflexivity.
  - simpl in H. destruct (processToken M stack token) as [stack1 | e] eqn:E; [| discriminate].
    simpl in *. rewrite (processToken_frame _ _ _ _ E). simpl. apply IH. assumption.
Qed.

(** X8. The loop never looks below the operands it needs: a run that
    succeeds on a stack succeeds in the same way on that stack with any
    values underneath, and leaves these values as they were. *)
Theorem stack_frame (tokens : list string) (base stack stack' : Stack) :
  processTokens M tokens stack = Ok stack' ->
  processTokens M tokens (base ++ stack) = Ok (base ++ stack').
Proof. apply processTokens_frame. Qed.

(** X9. Sub-expressions compose: tokens that evaluate on their own to
    the single value [v] act, inside any longer input, as one push of
    [v]; so an input made of two such sub-expressions followed by a
    binary operator applies the operator to their values, left one
    first. *)
Theorem subexpression_composition :
  (forall (tokens rest : list string) (stack : Stack) (v : float),
      processTokens M tokens [] = Ok [v] ->
      processTokens M (tokens ++ rest) stack = processTokens M rest (push stack v)) /\
  (forall (left right : list string) (operator : string) (a b : float),
      processTokens M left [] = Ok [a] ->
      processTokens M right [] = Ok [b] ->
      processTokens M (left ++ right ++ [operator]) [] = processToken M [a; b] operator).
Proof.
  assert (Hsub : forall tokens rest stack v,
             processTokens M tokens [] = Ok [v] ->
             processTokens M (tokens ++ rest) stack = processTokens M rest (push stack v)).
  { intros tokens rest stack v H.
    apply (processTokens_frame _ stack) in H. rewrite app_nil_r in H.
    rewrite processTokens_app, H. reflexivity. }
  split; [exact Hsub |].
  intros left right operator a b Ha Hb.
  rewrite (Hsub _ _ _ _ Ha), (Hsub _ _ _ _ Hb).
  change (push (push [] a) b) with [a; b]. cbn [processTokens].
  destruct (processToken M [a; b] operator); reflexivity.
Qed.

End LoopProperties.

(** ** The step recorder against the evaluator *)

Section RecorderProperties.

Variable M : MathImpl.
Local Open Scope float_scope.

Lemma recordToken_recorded (stack : Stack) (steps : list EvaluationStep) (token : string) :
  recorded token = true ->
  exists stack' action,
    recordToken M (stack, steps) token =
      (stack', steps ++ [{| step_token := token; step_stack := stack';
                            step_action := action |}]) /\
    stack' <> [].
Proof.
  unfold recorded, recordToken. intros H.
  destruct (isNumber token).
  - eexists _, _. split; [reflexivity | apply push_not_nil].
  - cbn [orb] in H. rewrite H. destruct (has UNARY_OPERATORS token).
    + destruct (pop stack) as [a s1].
      eexists _, _. split; [reflexivity | apply push_not_nil].
    + destruct (pop stack) as [b s1]. destruct (pop s1) as [a s2].
      eexists _, _. split; [reflexivity | apply push_not_nil].
Qed.

Lemma recordToken_skipped (st : Stack * list EvaluationStep) (token : string) :
  recorded token = false -> recordToken M st token = st.
Proof.
  unfold recorded, recordToken. intros H. destruct st as [stack steps].
  apply orb_false_iff in H as [-> ->]. reflexivity.
Qed.

Lemma last_cons_default (A : Type) (x d : A) (l : list A) :
  last (x :: l) d = last l x.
Proof.
  revert x d. induction l as [| y l IH]; intros x d; [reflexivity |].
  change (last (x :: y :: l) d) with (last (y :: l) d). rewrite !IH. reflexivity.
Qed.

(** The trace of a run of the recorder's loop: the steps it adds, and
    the stack it ends with, which is the snapshot of the last step. *)
Lemma fold_recordToken_trace
      (tokens : list string) (stack : Stack) (steps : list EvaluationStep) :
  exists (stack' : Stack) (new : list EvaluationStep),
    fold_left (recordToken M) tokens (stack, steps) = (stack', steps ++ new) /\
    map step_token new = filter recorded tokens /\
    Forall (fun step => step_stack step <> []) new /\
    (forall d, step_stack d = stack -> step_stack (last new d) = stack').
Proof.
  revert stack steps. induction tokens as [| token rest IH]; intros stack steps.
  - exists stack, []. rewrite app_nil_r. repeat split; auto.
  - cbn [fold_left filter]. destruct (recorded token) eqn:Hrec.
    + destruct (recordToken_recorded stack steps token Hrec)
        as (stack1 & action & -> & Hne).
      destruct (IH stack1 (steps ++ [{| step_token := token; step_stack := stack1;
                                        step_action := action |}]))
        as (stack' & new & Hfold & Hmap & Hall & Hlast).
      exists stack', ({| step_token := token; step_stack := stack1;
                         step_action := action |} :: new).
      rewrite <- app_assoc in Hfold. repeat split.
      * exact Hfold.
      * simpl. rewrite Hmap. reflexivity.
      * constructor; assumption.
      * intros d _. rewrite last_cons_default. apply Hlast. reflexivity.
    + rewrite (recordToken_skipped _ _ Hrec). apply IH.
Qed.

(** X10. The trace of [getEvaluationSteps], on every input: its steps
    are the tokens that are numbers or supported operators, in the order
    of the input, and no step has an empty stack snapshot. *)
Theorem getEvaluationSteps_trace (expression : string) :
  map step_token (getEvaluationSteps M expression) =
    filter recorded (split (trim expression)) /\
  Forall (fun step => step_stack step <> []) (getEvaluationSteps M expression).
Proof.
  destruct (fold_recordToken_trace (split (trim expression)) [] [])
    as (stack' & new & Hfold & Hmap & Hall & _).
  assert (E : getEvaluationSteps M expression = new) by exact (f_equal snd Hfold).
  rewrite E. auto.
Qed.

Lemma recordToken_agrees
      (stack stack' : Stack) (steps : list EvaluationStep) (token : string) :
  processToken M stack token = Ok stack' ->
  fst (recordToken M (stack, steps) token) = stack' /\ recorded token = true.
Proof.
  unfold processToken, recordToken, recorded.
  destruct (isNumber token).
  - intros H. injection H as <-. auto.
  - destruct (has SUPPORTED_OPERATORS token); [| discriminate].
    destruct (has UNARY_OPERATORS token).
    + destruct stack as [| x0 stack0]; [discriminate |].
      destruct (@stack_last (x0 :: stack0)) as (rest & a & E); [discriminate |].
      rewrite E, processUnaryOperator_push, pop_push.
      unfold Math_sqrt, toRadians, ToNumber.
      repeat match goal with
             | |- context [if ?c then _ else _] => destruct c
             end;
        intros H; try discriminate H; injection H as <-; auto.
    + destruct (stack_shape stack) as [-> | [[x ->] | (rest & a & b & ->)]];
        try (rewrite processBinaryOperator_short by (simpl; lia); discriminate).
      rewrite processBinaryOperator_push2, !pop_push.
      unfold JSOp.add, JSOp.sub, JSOp.mul, JSOp.div, ToNumber.
      repeat match goal with
             | |- context [if ?c then _ else _] => destruct c
             end;
        intros H; try discriminate H; injection H as <-; auto.
Qed.

Lemma fold_recordToken_agrees
      (tokens : list string) (stack stack' : Stack) (steps : list EvaluationStep) :
  processTokens M tokens stack = Ok stack' ->
  fst (fold_left (recordToken M) tokens (stack, steps)) = stack' /\
  filter recorded tokens = tokens.
Proof.
  revert stack steps. induction tokens as [| token rest IH]; intros stack steps H.
  - injection H as <-. auto.
  - simpl in H. destruct (processToken M stack token) as [stack1 | e] eqn:E; [| discriminate].
    simpl in H. destruct (recordToken_agrees _ _ steps _ E) as [Hfst Hrec].
    cbn [fold_left filter]. rewrite Hrec.
    destruct (recordToken M (stack, steps) token) as [s1 steps1]. simpl in Hfst. subst s1.
    destruct (IH _ steps1 H) as [Hf Hfilter]. rewrite Hfilter. auto.
Qed.

(** X11. On every input for which [evaluateRPN] returns a value, the
    step recorder runs the same computation: it records one step per
    token of the input, in order, and the stack snapshot of its last step
    holds exactly the value [evaluateRPN] returns. *)
Theorem getEvaluationSteps_agrees_with_evaluateRPN (expression : string) (v : float) :
  evaluateRPN M expression = Ok v ->
  map step_token (getEvaluationSteps M expression) = split (trim expression) /\
  exists (before : list EvaluationStep) (final : EvaluationStep),
    getEvaluationSteps M expression = before ++ [final] /\
    step_stack final = [v].
Proof.
  intros H. apply evaluateRPN_Ok_loop in H.
  destruct (fold_recordToken_agrees _ _ _ [] H) as [Hfst Hfilter].
  destruct (fold_recordToken_trace (split (trim expression)) [] [])
    as (stack' & new & Hfold & Hmap & _ & Hlast).
  assert (E : getEvaluationSteps M expression = new) by exact (f_equal snd Hfold).
  assert (E' : stack' = [v]).
  { rewrite <- Hfst. symmetry. exact (f_equal fst Hfold). }
  rewrite E. subst stack'.
  rewrite Hfilter in Hmap. split; [assumption |].
  assert (Hne : new <> []).
  { intros ->. symmetry in Hmap. exact (split_not_nil _ Hmap). }
  destruct (exists_last Hne) as (before & final & ->).
  exists before, final. split; [reflexivity |].
  specialize (Hlast {| step_token := ""; step_stack := []; step_action := Push "" |} eq_refl).
  rewrite last_last in Hlast. assumption.
Qed.

End RecorderProperties.

(** ** Number tokens *)

Section NumberTokens.

Local Open Scope float_scope.

(** X12. What [isNumber] decides: it is [isFinite] of the value read by
    [parseFloat] (the [isNaN] test never changes the answer), and a token
    it accepts starts, after optional whitespace and one optional sign,
    with a digit, or with a period followed by a digit.  Words such as
    [Infinity], [NaN] or an operator name are therefore never numbers. *)
Theorem isNumber_shape (token : string) :
  isNumber token = isFinite (parseFloat token) /\
  (isNumber token = true -> startsLiteral token = true).
Proof.
  assert (Hfin : isNumber token = isFinite (parseFloat token)).
  { unfold isNumber. destruct (isFinite (parseFloat token)) eqn:E.
    - rewrite (FloatFacts.finite_not_nan _ E). reflexivity.
    - apply andb_false_r. }
  split; [exact Hfin |].
  rewrite Hfin. unfold parseFloat, startsLiteral.
  destruct (takeSign (trimStart token)) as [neg s]. cbn [snd].
  destruct s as [| c r].
  - intros H. vm_compute in H. discriminate H.
  - destruct (isDigit c) eqn:Hd; [reflexivity |].
    destruct (startsWith "Infinity" (String c r)).
    { intros H. destruct neg; vm_compute in H; discriminate H. }
    cbn [takeDigits]. rewrite Hd.
    destruct (Ascii.eqb c ".") eqn:Hp.
    + apply Ascii.eqb_eq in Hp. subst c. cbn [orb andb].
      destruct r as [| d r'].
      * intros H. vm_compute in H. discriminate H.
      * destruct (isDigit d) eqn:Hd2; [reflexivity |].
        cbn [takeDigits]. rewrite Hd2.
        intros H. vm_compute in H. discriminate H.
    + intros H. exfalso.
      destruct c as [[] [] [] [] [] [] [] []];
        try discriminate Hp; vm_compute in H; discriminate H.
Qed.

End NumberTokens.

(** ** The page *)

Section PageProperties.

Variable M : MathImpl.
Import Page.

(** X13. A quick-insert button appends exactly one token to the
    expression: the tokens of the new text are the tokens of the old one
    (none, when it was blank) followed by the inserted token, for every
    inserted token that is non-empty and free of whitespace, as the nine
    buttons' tokens are. *)
Theorem quickInsert_appends_token :
  (forall (st : State) (token : string),
      isWord token = true ->
      split (trim (st_expression (quickInsert token st))) =
        (if allWhite (st_expression st) then [] else split (trim (st_expression st)))
        ++ [token]) /\
  Forall (fun token => isWord token = true) QUICK_INSERT.
Proof.
  split; [| repeat constructor].
  intros st token Hw. cbn [quickInsert st_expression]. unfold quickInsertText.
  set (prev := st_expression st). clearbody prev.
  rewrite (split_trim_words prev), split_trim_words.
  assert (Hwords : words (prev ++ (if (prev =? "")%string then "" else " ") ++ token)
                   = words prev ++ [token]).
  { destruct (prev =? "")%string eqn:E.
    - apply String.eqb_eq in E. subst prev. simpl. apply words_word. assumption.
    - change (prev ++ " " ++ token)%string with (prev ++ String " " token)%string.
      unfold words at 1. rewrite wordsFrom_app_white by reflexivity.
      rewrite words_word by assumption. reflexivity. }
  rewrite Hwords.
  destruct (allWhite prev) eqn:Ew.
  - rewrite (proj2 (words_nil_iff prev) Ew). reflexivity.
  - destruct (words prev) as [| w ws] eqn:Ep; [| reflexivity].
    apply words_nil_iff in Ep. congruence.
Qed.

Lemma firstn_Forall (A : Type) (P : A -> Prop) (n : nat) (l : list A) :
  Forall P l -> Forall P (firstn n l).
Proof.
  revert n. induction l as [| x l IH]; intros [| n] H; simpl; auto.
  inversion H; subst. constructor; auto.
Qed.

Lemma evaluateRPN_trim (s : string) : evaluateRPN M (trim s) = evaluateRPN M s.
Proof. rewrite !evaluateRPN_words, words_trim. reflexivity. Qed.

Lemma allWhite_trim (s : string) : allWhite (trim s) = allWhite s.
Proof.
  destruct (allWhite s) eqn:E.
  - apply words_nil_iff. rewrite words_trim. apply words_nil_iff. assumption.
  - destruct (allWhite (trim s)) eqn:E'; [| reflexivity].
    apply words_nil_iff in E'. rewrite words_trim in E'.
    apply words_nil_iff in E'. congruence.
Qed.

Lemma handle_historyInvariant (st : State) (ev : Event) :
  historyInvariant M st -> historyInvariant M (handle M st ev).
Proof.
  intros [Hlen Hall].
  assert (Hcalc : forall now, historyInvariant M (handleCalculate M now st)).
  { intros now. unfold handleCalculate.
    destruct (trim (st_expression st) =? "")%string eqn:Eb; [split; assumption |].
    destruct (evaluateRPN M (trim (st_expression st))) as [v | e] eqn:E;
      [| split; assumption].
    split; cbn [st_history].
    - unfold slice09. cbn [List.length]. rewrite length_firstn. lia.
    - constructor; [| apply firstn_Forall; assumption].
      cbn [expression result]. split; [exact E |].
      rewrite allWhite_trim. destruct (allWhite (st_expression st)) eqn:Ew; [| reflexivity].
      apply trim_empty_iff in Ew. rewrite Ew in Eb. discriminate Eb. }
  destruct ev; cbn [handle]; try (split; assumption); auto.
  - unfold handleKeyPress. destruct (key =? "Enter")%string; [auto | split; assumption].
  - split; cbn [clearHistory st_history]; [simpl; lia | constructor].
Qed.

Lemma run_historyInvariant (events : list Event) (st : State) :
  historyInvariant M st -> historyInvariant M (run M events st).
Proof.
  unfold run. revert st. induction events as [| ev rest IH]; intros st H; [assumption |].
  simpl. apply IH, handle_historyInvariant, H.
Qed.

Lemma initial_historyInvariant : historyInvariant M initial.
Proof. split; [simpl; lia | constructor]. Qed.

(** X14. Whatever the user does, the history never holds more than ten
    calculations. *)
Theorem history_bounded (events : list Event) :
  (List.length (st_history (run M events initial)) <= 10)%nat.
Proof. apply (run_historyInvariant events initial initial_historyInvariant). Qed.

(** X15. Whatever the user does, every calculation in the history is a
    true one: its expression is not blank and [evaluateRPN] returns its
    result on it.  So clicking an entry and calculating again shows the
    entry's result, and no error. *)
Theorem history_entries_replay (events : list Event) (h : CalculationHistory) (now : Z) :
  let st := run M events initial in
  In h (st_history st) ->
  evaluateRPN M (expression h) = Ok (result h) /\
  allWhite (expression h) = false /\
  st_result (handleCalculate M now (handleHistoryClick (expression h) st)) = Some (result h) /\
  st_error (handleCalculate M now (handleHistoryClick (expression h) st)) = None.
Proof.
  intros st Hin.
  destruct (run_historyInvariant events initial initial_historyInvariant) as [_ Hall].
  fold st in Hall. rewrite Forall_forall in Hall.
  destruct (Hall h Hin) as [Heval Hw].
  split; [assumption | split; [assumption |]].
  unfold handleCalculate, handleHistoryClick, useFromHistory. cbn [st_expression].
  destruct (trim (expression h) =? "")%string eqn:Eb.
  - apply String.eqb_eq, trim_empty_iff in Eb. congruence.
  - rewrite evaluateRPN_trim, Heval. split; reflexivity.
Qed.

Lemma message_ExpressionEmpty (e : Error) :
  message e = message ExpressionEmpty -> e = ExpressionEmpty.
Proof. destruct e; simpl; intros H; try discriminate H; reflexivity. Qed.

(** X16. What Calculate shows.  On a blank expression: the page's own
    message, with result and history left as they were.  Otherwise
    either the value [evaluateRPN] returns for the expression, no error,
    and a new first history entry holding the trimmed expression and that
    value; or the message of the error [evaluateRPN] throws, no result,
    and the history as it was.  The evaluator's empty-expression message
    is never shown. *)
Theorem handleCalculate_outcome (now : Z) (st : State) :
  let st' := handleCalculate M now st in
  (allWhite (st_expression st) = true ->
     st_error st' = Some "Please enter an expression" /\
     st_result st' = st_result st /\ st_history st' = st_history st) /\
  (allWhite (st_expression st) = false ->
     (exists v,
         evaluateRPN M (st_expression st) = Ok v /\
         st_result st' = Some v /\ st_error st' = None /\
         st_history st' =
           {| expression := trim (st_expression st); result := v; timestamp := now |}
           :: firstn 9 (st_history st)) \/
     (exists e,
         evaluateRPN M (st_expression st) = Throw e /\
         st_result st' = None /\ st_error st' = Some (message e) /\
         st_history st' = st_history st)) /\
  st_error st' <> Some (message ExpressionEmpty) /\
  st_expression st' = st_expression st.
Proof.
  cbv zeta. unfold handleCalculate.
  destruct (trim (st_expression st) =? "")%string eqn:Eb.
  - apply String.eqb_eq in Eb. pose proof (proj1 (trim_empty_iff _) Eb) as Ew.
    repeat split; try reflexivity; try discriminate.
    intros H. congruence.
  - assert (Ew : allWhite (st_expression st) = false).
    { destruct (allWhite (st_expression st)) eqn:Ew; [| reflexivity].
      apply trim_empty_iff in Ew. rewrite Ew in Eb. discriminate Eb. }
    rewrite evaluateRPN_trim.
    destruct (evaluateRPN M (st_expression st)) as [v | e] eqn:E; cbn.
    + repeat split; try discriminate; try congruence.
      intros _. left. exists v. auto.
    + repeat split; try congruence.
      * intros _. right. exists e. auto.
      * intros H. injection H as H. apply message_ExpressionEmpty in H. subst e.
        apply evaluateRPN_ExpressionEmpty in E. congruence.
Qed.

End PageProperties.

(** ** The further properties at concrete inputs *)

Section FurtherInstances.

Local Open Scope float_scope.
Import Page.

Lemma evaluateRPN_empty_iff_blank_witness :
  allWhite "   " = true /\
  (forall M : MathImpl, evaluateRPN M "   " = Throw ExpressionEmpty).
Proof.
  split; [reflexivity |].
  intros M. apply (evaluateRPN_empty_iff_blank M "   "). reflexivity.
Defined.

Lemma evaluateRPN_whitespace_insensitive_witness :
  words "3  4 +" = words " 3 4   + " /\
  (forall M : MathImpl, evaluateRPN M "3  4 +" = evaluateRPN M " 3 4   + ").
Proof.
  split; [reflexivity |].
  intros M. apply (evaluateRPN_whitespace_insensitive M). reflexivity.
Defined.

Lemma tokens_are_words_witness :
  allWhite " 3  4 + " = false /\
  split (trim " 3  4 + ") = ["3"; "4"; "+"]%string /\
  Forall (fun token => isWord token = true) (split (trim " 3  4 + ")).
Proof.
  split; [reflexivity |]. split; [reflexivity |].
  apply (tokens_are_words " 3  4 + "). reflexivity.
Defined.

Lemma split_trim_concat_witness :
  ["3"; "4"; "+"]%string <> [] /\
  Forall (fun token => isWord token = true) ["3"; "4"; "+"]%string /\
  split (trim (concat " " ["3"; "4"; "+"]%string)) = ["3"; "4"; "+"]%string.
Proof.
  split; [discriminate |]. split; [repeat constructor |].
  apply split_trim_concat; [discriminate | repeat constructor].
Defined.

Lemma stack_size_accounting_witness :
  (forall M : MathImpl, evaluateRPN M "3 4 + 9 sqrt *" = Ok 21) /\
  (forall M : MathImpl,
      List.length (filter isNumber (split (trim "3 4 + 9 sqrt *"))) =
        S (List.length (filter isBinaryToken (split (trim "3 4 + 9 sqrt *"))))).
Proof.
  split; intros M; [reflexivity |].
  apply (proj2 (stack_size_accounting M) "3 4 + 9 sqrt *" 21). reflexivity.
Defined.

Lemma first_failing_token_witness :
  (forall M : MathImpl,
      processTokens M ["3"; "0"; "/"; "foo"]%string [] = Throw DivisionByZero) /\
  (forall M : MathImpl,
      processTokens M (["3"; "0"; "/"; "foo"] ++ ["bar"; "+"]) [] =
        Throw DivisionByZero).
Proof.
  split; intros M; [reflexivity |].
  apply (first_failing_token M ["3"; "0"; "/"; "foo"]%string [] DivisionByZero).
  reflexivity.
Defined.

Lemma evaluateRPN_errors_witness :
  (forall M : MathImpl, evaluateRPN M "3 foo +" = Throw (UnknownToken "foo")) /\
  (forall M : MathImpl,
      UnknownToken "foo" = ExpressionEmpty \/ UnknownToken "foo" = TooManyOperands \/
      UnknownToken "foo" = DivisionByZero \/ UnknownToken "foo" = SquareRootOfNegative \/
      (exists token : string,
          In token (split (trim "3 foo +")) /\ isNumber token = false /\
          ((UnknownToken "foo" = InsufficientOperandsFor token /\
            has SUPPORTED_OPERATORS token = true) \/
           (UnknownToken "foo" = UnknownToken token /\
            has SUPPORTED_OPERATORS token = false)))).
Proof.
  split; intros M; [reflexivity |].
  apply (evaluateRPN_errors M "3 foo +" (UnknownToken "foo")). reflexivity.
Defined.

Lemma stack_frame_witness :
  (forall M : MathImpl, processTokens M ["4"; "+"]%string [3] = Ok [7]) /\
  (forall M : MathImpl, processTokens M ["4"; "+"]%string ([1; 2] ++ [3]) = Ok ([1; 2] ++ [7])).
Proof.
  split; intros M; [reflexivity |].
  apply (stack_frame M ["4"; "+"]%string [1; 2] [3] [7]). reflexivity.
Defined.

Lemma subexpression_composition_witness :
  (forall M : MathImpl, processTokens M ["2"; "3"; "*"]%string [] = Ok [6]) /\
  (forall M : MathImpl, processTokens M ["9"; "sqrt"]%string [] = Ok [3]) /\
  (forall M : MathImpl,
      processTokens M (["2"; "3"; "*"] ++ ["9"; "sqrt"] ++ ["-"]) [] =
        processToken M [6; 3] "-").
Proof.
  split; [reflexivity |]. split; [reflexivity |].
  intros M. apply (proj2 (subexpression_composition M)); reflexivity.
Defined.

Lemma getEvaluationSteps_agrees_with_evaluateRPN_witness :
  (forall M : MathImpl, evaluateRPN M "3 4 +" = Ok 7) /\
  (forall M : MathImpl,
      exists (before : list EvaluationStep) (final : EvaluationStep),
        getEvaluationSteps M "3 4 +" = before ++ [final] /\ step_stack final = [7]).
Proof.
  split; intros M; [reflexivity |].
  apply (getEvaluationSteps_agrees_with_evaluateRPN M "3 4 +" 7). reflexivity.
Defined.

Lemma isNumber_shape_witness :
  isNumber "-.5e1x" = true /\ startsLiteral "-.5e1x" = true.
Proof.
  split; [reflexivity |].
  apply (isNumber_shape "-.5e1x"). reflexivity.
Defined.

Lemma quickInsert_appends_token_witness :
  isWord "sqrt" = true /\
  split (trim (st_expression (quickInsert "sqrt" (setExpression "3 4 +" initial)))) =
    ["3"; "4"; "+"; "sqrt"].
Proof.
  split; [reflexivity |].
  apply (proj1 quickInsert_appends_token (setExpression "3 4 +" initial) "sqrt").
  reflexivity.
Defined.

Lemma history_entries_replay_witness :
  (forall M : MathImpl,
      In {| expression := "3 4 +"; result := 7; timestamp := 5 |}
         (st_history (run M [Change " 3 4 + "; Calculate 5] initial))) /\
  (forall M : MathImpl,
      st_result (handleCalculate M 9
                   (handleHistoryClick "3 4 +"
                      (run M [Change " 3 4 + "; Calculate 5] initial))) = Some 7).
Proof.
  split; intros M; [left; reflexivity |].
  apply (history_entries_replay M [Change " 3 4 + "; Calculate 5]
           {| expression := "3 4 +"; result := 7; timestamp := 5 |} 9).
  left. reflexivity.
Defined.

Lemma handleCalculate_outcome_witness :
  allWhite "  " = true /\
  (forall M : MathImpl,
      st_error (handleCalculate M 0 (setExpression "  " initial)) =
        Some "Please enter an expression"%string).
Proof.
  split; [reflexivity |].
  intros M. apply (handleCalculate_outcome M 0 (setExpression "  " initial)). reflexivity.
Defined.

End FurtherInstances.
